(** * RelativePerformerModel (relative_performer/train.py)

    A shallow embedding of the model class of [train.py]: its constructor,
    the three private helpers and [forward], over a small model of the
    torch / einops operations they call.

    Tensors are row-major storage plus shape, device and dtype, as torch
    keeps them.  Scalars are an abstract type: no law of arithmetic is
    assumed of them, so every statement below holds for whatever the
    numeric backend computes.  A Python exception is the [Raise] outcome
    of a [result]. *)

From Stdlib Require Import List ZArith Lia Bool PeanoNat.
From Stdlib Require String.
Import ListNotations.
Import String.StringSyntax.
Delimit Scope string_scope with string.

Set Implicit Arguments.

(* ================================================================= *)
(** ** Outcomes *)

Inductive exn : Type :=
| RuntimeError      (* torch: shape, device or size errors *)
| IndexError        (* indexing past the end of an axis *)
| ValueError        (* tuple unpacking of a too short shape *)
| EinopsError.      (* rearrange: the tensor does not fit the pattern *)

Inductive result (A : Type) : Type :=
| Ok (a : A)
| Raise (e : exn).

Arguments Ok {A} a.
Arguments Raise {A} e.

Definition bind {A B : Type} (r : result A) (k : A -> result B) : result B :=
  match r with
  | Ok a => k a
  | Raise e => Raise e
  end.

Notation "x <- r ;; k" := (bind r (fun x => k))
  (at level 61, r at next level, right associativity).
Notation "' p <- r ;; k" := (bind r (fun p => k))
  (at level 61, p pattern, r at next level, right associativity).


(* ================================================================= *)
(** ** Tensor metadata *)

Inductive Device : Type :=
| cpu
| cuda (index : nat).

Inductive DType : Type :=
| float16
| bfloat16
| float32
| float64.

Definition Device_eqb (a b : Device) : bool :=
  match a, b with
  | cpu, cpu => true
  | cuda i, cuda j => Nat.eqb i j
  | _, _ => false
  end.

Definition DType_eqb (a b : DType) : bool :=
  match a, b with
  | float16, float16 | bfloat16, bfloat16
  | float32, float32 | float64, float64 => true
  | _, _ => false
  end.

(** torch.promote_types on the floating dtypes. *)
Definition promote_types (a b : DType) : DType :=
  match a, b with
  | float64, _ | _, float64 => float64
  | float32, _ | _, float32 => float32
  | float16, float16 => float16
  | bfloat16, bfloat16 => bfloat16
  | float16, bfloat16 | bfloat16, float16 => float32
  end.

(** What a factory call without [device=] / [dtype=] gets. *)
Definition default_device : Device := cpu.
Definition default_dtype : DType := float32.

(* ================================================================= *)
(** ** Scalars

    The numeric backend.  [cast dt k] is the integer [k] as a scalar of
    dtype [dt] (what [torch.arange(..., dtype=dt)] stores); [angle p t] is
    the phase of position [p] at timescale [t]; [draw] is the stream of
    the random generator used for initial parameter values, and
    [timescale_init] the initial timescale of a band. *)

Class Scalars : Type := {
  scalar : Type;
  cast : DType -> nat -> scalar;
  zero : scalar;
  add : scalar -> scalar -> scalar;
  mul : scalar -> scalar -> scalar;
  sin : scalar -> scalar;
  cos : scalar -> scalar;
  angle : scalar -> scalar -> scalar;
  draw : nat -> scalar;
  timescale_init : Z -> nat -> nat -> scalar
}.

Section Torch.

Context {S : Scalars}.

Record Tensor : Type := mkTensor {
  device : Device;
  dtype : DType;
  shape : list nat;
  data : list scalar
}.

Definition numel (s : list nat) : nat := fold_right Nat.mul 1 s.

Fixpoint shape_eqb (s1 s2 : list nat) : bool :=
  match s1, s2 with
  | [], [] => true
  | n :: s1', m :: s2' => Nat.eqb n m && shape_eqb s1' s2'
  | _, _ => false
  end.

(** Storage and shape agree. *)
Definition wf_tensor (t : Tensor) : Prop :=
  length (data t) = numel (shape t).

(** Row-major offset of a multi-index; [None] when the index has the
    wrong rank or leaves an axis. *)
Fixpoint ravel (s idx : list nat) (acc : nat) : option nat :=
  match s, idx with
  | [], [] => Some acc
  | n :: s', i :: idx' =>
      if i <? n then ravel s' idx' (acc * n + i) else None
  | _, _ => None
  end.

(** [t[idx]] for a full multi-index. *)
Definition item (t : Tensor) (idx : list nat) : option scalar :=
  match ravel (shape t) idx 0 with
  | Some k => nth_error (data t) k
  | None => None
  end.

Definition opt_list {A : Type} (o : option A) : list A :=
  match o with Some a => [a] | None => [] end.

(** The [i]-th block of [k] consecutive entries. *)
Definition block {A : Type} (k i : nat) (l : list A) : list A :=
  firstn k (skipn (i * k) l).

(* ----------------------------------------------------------------- *)
(** *** Factories *)

(** [torch.zeros] of the sizes [s]: no device, no dtype given. *)
Definition zeros (s : list nat) : Tensor :=
  mkTensor default_device default_dtype s (repeat zero (numel s)).

(** [torch.arange(0, n, device=dev, dtype=dt)]. *)
Definition arange (n : nat) (dev : Device) (dt : DType) : Tensor :=
  mkTensor dev dt [n] (map (cast dt) (seq 0 n)).

(* ----------------------------------------------------------------- *)
(** *** meshgrid and stack *)

(** [torch.meshgrid(x, y)] with the default "ij" indexing: two grids of
    shape [nx, ny]; the first repeats [x] along the columns, the second
    repeats [y] along the rows.  A 0-d input counts as one entry. *)
Definition meshgrid (x y : Tensor) : result (list Tensor) :=
  if negb ((length (shape x) <=? 1) && (length (shape y) <=? 1)) then
    Raise RuntimeError
  else if negb (Device_eqb (device x) (device y)
                && DType_eqb (dtype x) (dtype y)) then
    Raise RuntimeError
  else
    let nx := numel (shape x) in
    let ny := numel (shape y) in
    Ok [ mkTensor (device x) (dtype x) [nx; ny]
           (flat_map (fun a => repeat a ny) (data x));
         mkTensor (device y) (dtype y) [nx; ny]
           (flat_map (fun _ => data y) (data x)) ].

(** [torch.stack(ts, axis=-1)]: equal shapes, one device; entry [i] of the
    result holds entry [i] of every input, side by side. *)
Definition stack_last (ts : list Tensor) : result Tensor :=
  match ts with
  | [] => Raise RuntimeError
  | t0 :: rest =>
      if negb (forallb
                 (fun t => shape_eqb (shape t) (shape t0)
                           && Device_eqb (device t) (device t0)) rest) then
        Raise RuntimeError
      else
        Ok (mkTensor (device t0)
              (fold_left promote_types (map dtype rest) (dtype t0))
              (shape t0 ++ [length ts])
              (flat_map
                 (fun i => flat_map (fun t => opt_list (nth_error (data t) i)) ts)
                 (seq 0 (numel (shape t0)))))
  end.

(* ----------------------------------------------------------------- *)
(** *** einops.rearrange, the three patterns of the source

    Merging neighbouring axes of a row-major tensor leaves the storage as
    it is; a tensor whose rank differs from the number of names on the
    left of the pattern is refused. *)

(** ['b x y d -> b (x y) d'] *)
Definition rearrange_b_x_y_d__b_xy_d (t : Tensor) : result Tensor :=
  match shape t with
  | [b; x; y; d] => Ok (mkTensor (device t) (dtype t) [b; x * y; d] (data t))
  | _ => Raise EinopsError
  end.

(** ['x y d -> 1 (x y) d'] *)
Definition rearrange_x_y_d__1_xy_d (t : Tensor) : result Tensor :=
  match shape t with
  | [x; y; d] => Ok (mkTensor (device t) (dtype t) [1; x * y; d] (data t))
  | _ => Raise EinopsError
  end.

(** ['b n p d -> b n (p d)'] *)
Definition rearrange_b_n_p_d__b_n_pd (t : Tensor) : result Tensor :=
  match shape t with
  | [b; n; p; d] => Ok (mkTensor (device t) (dtype t) [b; n; p * d] (data t))
  | _ => Raise EinopsError
  end.

(* ----------------------------------------------------------------- *)
(** *** expand, cat, indexing *)

(** Storage of a tensor of shape [s] broadcast to [target] (same rank):
    an axis keeps its size or grows from 1. *)
Fixpoint expand_data (s target : list nat) (d : list scalar)
  : result (list scalar) :=
  match s, target with
  | [], [] => Ok d
  | n :: s', m :: target' =>
      if Nat.eqb n m then
        fold_right
          (fun i acc =>
             c <- expand_data s' target' (block (numel s') i d) ;;
             r <- acc ;;
             Ok (c ++ r))
          (Ok []) (seq 0 n)
      else if Nat.eqb n 1 then
        c <- expand_data s' target' d ;;
        Ok (concat (repeat c m))
      else Raise RuntimeError
  | _, _ => Raise RuntimeError
  end.

(** [t.expand] to the sizes [target]; missing leading axes are added
    with size 1. *)
Definition expand (t : Tensor) (target : list nat) : result Tensor :=
  if length target <? length (shape t) then Raise RuntimeError
  else
    let s := repeat 1 (length target - length (shape t)) ++ shape t in
    d <- expand_data s target (data t) ;;
    Ok (mkTensor (device t) (dtype t) target d).

(** [torch.cat([a, b], axis=1)]: same rank (at least 2), same sizes off
    axis 1, same device; the dtype is promoted. *)
Definition cat1 (a b : Tensor) : result Tensor :=
  match shape a, shape b with
  | a0 :: a1 :: arest, b0 :: b1 :: brest =>
      if negb (Nat.eqb a0 b0 && shape_eqb arest brest) then
        Raise RuntimeError
      else if negb (Device_eqb (device a) (device b)) then
        Raise RuntimeError
      else
        Ok (mkTensor (device a) (promote_types (dtype a) (dtype b))
              (a0 :: (a1 + b1) :: arest)
              (flat_map
                 (fun i => block (a1 * numel arest) i (data a)
                           ++ block (b1 * numel brest) i (data b))
                 (seq 0 a0)))
  | _, _ => Raise RuntimeError
  end.

(** [t[:, 0]] *)
Definition select_1_0 (t : Tensor) : result Tensor :=
  match shape t with
  | b :: n :: rest =>
      if Nat.eqb n 0 then Raise IndexError
      else
        Ok (mkTensor (device t) (dtype t) (b :: rest)
              (flat_map (fun i => block (numel rest) (i * n) (data t))
                 (seq 0 b)))
  | _ => Raise IndexError
  end.

(** [t[None, None, :]] on a tensor of rank at least 1. *)
Definition index_None_None_slice (t : Tensor) : result Tensor :=
  match shape t with
  | [] => Raise IndexError
  | s => Ok (mkTensor (device t) (dtype t) (1 :: 1 :: s) (data t))
  end.

End Torch.

(* ================================================================= *)
(** ** torch.nn.Linear *)

Section Layers.

Context {S : Scalars}.

Record Linear : Type := mkLinear {
  l_in_features : nat;
  l_out_features : nat;
  weight : list (list scalar);     (* [out_features, in_features] *)
  bias : list scalar               (* [out_features] *)
}.

Definition wf_Linear (l : Linear) : Prop :=
  length (weight l) = l_out_features l /\ length (bias l) = l_out_features l.

(** [nn.Linear(i, o)]: a negative size is refused when the weight is
    allocated; the initial values are whatever the generator draws. *)
Definition Linear_new (i o : Z) : result Linear :=
  if ((i <? 0) || (o <? 0))%Z then Raise RuntimeError
  else
    let n_in := Z.to_nat i in
    let n_out := Z.to_nat o in
    Ok (mkLinear n_in n_out
          (map (fun r => map (fun c => draw (r * n_in + c)) (seq 0 n_in))
               (seq 0 n_out))
          (map (fun r => draw (n_out * n_in + r)) (seq 0 n_out))).

Definition dot (row x : list scalar) : scalar :=
  fold_right add zero (map (fun wv => mul (fst wv) (snd wv)) (combine row x)).

(** One output vector: [W x + b]. *)
Definition affine (l : Linear) (x : list scalar) : list scalar :=
  map (fun rb => add (dot (fst rb) x) (snd rb)) (combine (weight l) (bias l)).

(** Calling the layer: the last axis must hold [in_features] entries and
    becomes [out_features]; device and dtype are those of the input. *)
Definition Linear_call (l : Linear) (x : Tensor) : result Tensor :=
  match rev (shape x) with
  | [] => Raise RuntimeError
  | k :: lead =>
      if negb (Nat.eqb k (l_in_features l)) then Raise RuntimeError
      else
        Ok (mkTensor (device x) (dtype x)
              (rev lead ++ [l_out_features l])
              (flat_map (fun i => affine l (block k i (data x)))
                 (seq 0 (numel (rev lead)))))
  end.

(* ================================================================= *)
(** ** LearnableSinusoidEncoding *)

(** Modelled from the spec: [LearnableSinusoidEncoding], defined in
    relative_performer/constrained_relative_encoding.py, which is not among
    the sources.  The spec (sections 3 and 4.1) gives it one learnable
    timescale per frequency band, shared by all position coordinates, and
    for every coordinate and band the pair (sin, cos) of the phase.
    [train.py] hands the constructor [pos_scales*2], the number of scalars
    emitted per coordinate, and reads the result through the four-name
    pattern ['b n p d'], so the pairs of all bands lie side by side on one
    trailing axis.  Whether the constructor refuses some arguments is not
    known; that is the [encoding_check] of [External] below. *)
Record LearnableSinusoidEncoding : Type := mkEncoding {
  enc_dim : Z;                     (* the constructor's first argument *)
  max_timescale_init : Z;
  timescales : list scalar
}.

Definition num_bands (e : LearnableSinusoidEncoding) : nat :=
  length (timescales e).

Definition encode (e : LearnableSinusoidEncoding) (p : scalar) : list scalar :=
  flat_map (fun t => [sin (angle p t); cos (angle p t)]) (timescales e).

Definition LearnableSinusoidEncoding_call
    (e : LearnableSinusoidEncoding) (x : Tensor) : Tensor :=
  mkTensor (device x) (dtype x)
    (shape x ++ [2 * num_bands e])
    (flat_map (encode e) (data x)).

(* ================================================================= *)
(** ** What lies outside train.py *)

(** The attention capability [RelativePerformer] and the argument checks
    of the two constructors that [train.py] imports.  The performer keeps
    state of its own between calls ([PerformerState]); a call returns its
    output, or raises, together with the state it leaves behind. *)

Record RelativePerformerArgs : Type := mkArgs {
  rp_dim : Z;
  rp_depth : Z;
  rp_heads : Z;
  rp_pos_dims : Z;
  rp_pos_scales : Z
}.

Class External : Type := {
  encoding_check : Z -> Z -> option exn;
  PerformerState : Type;
  performer_check : RelativePerformerArgs -> option exn;
  performer_init : RelativePerformerArgs -> PerformerState;
  performer_forward :
    RelativePerformerArgs -> PerformerState -> Tensor -> Tensor ->
    result Tensor * PerformerState
}.

Context {E : External}.

Definition LearnableSinusoidEncoding_new (n max_t : Z)
  : result LearnableSinusoidEncoding :=
  match encoding_check n max_t with
  | Some e => Raise e
  | None =>
      let bands := Z.to_nat (n / 2) in
      Ok (mkEncoding n max_t (map (timescale_init max_t bands) (seq 0 bands)))
  end.

Record RelativePerformer : Type := mkPerformer {
  rp_args : RelativePerformerArgs;
  rp_state : PerformerState
}.

Definition RelativePerformer_new (a : RelativePerformerArgs)
  : result RelativePerformer :=
  match performer_check a with
  | Some e => Raise e
  | None => Ok (mkPerformer a (performer_init a))
  end.

(* ================================================================= *)
(** ** RelativePerformerModel *)

(** The arguments of [__init__]; [**kwargs] is not used by the class. *)
Record Config : Type := mkConfig {
  dim : Z;
  depth : Z;
  heads : Z;
  pos_scales : Z;
  in_features : Z;
  pos_dims : Z;
  max_pos : Z;
  num_classes : Z
}.

(** [in_features=1, pos_dims=1, max_pos=32, num_classes=10] *)
Definition Config_default (dim depth heads pos_scales : Z) : Config :=
  mkConfig dim depth heads pos_scales 1 1 32 10.

(** The attributes [forward] and the helpers read.  The loss and the two
    accuracy metrics are used by the training steps only. *)
Record RelativePerformerModel : Type := mkModel {
  hparams : Config;
  positional_embedding : LearnableSinusoidEncoding;
  content_embedding : Linear;
  class_query : Tensor;
  performer : RelativePerformer;
  output_layer : Linear
}.

(** [nn.Parameter(torch.Tensor(n))]: [n] uninitialised entries on the
    default device. *)
Definition torch_Tensor (n : Z) : result Tensor :=
  if (n <? 0)%Z then Raise RuntimeError
  else Ok (mkTensor default_device default_dtype [Z.to_nat n]
             (repeat zero (Z.to_nat n))).

(** [nn.init.normal_]: every entry is drawn afresh. *)
Definition normal_ (t : Tensor) : Tensor :=
  mkTensor (device t) (dtype t) (shape t)
    (map draw (seq 0 (length (data t)))).

Definition reset_parameters (self : RelativePerformerModel)
  : RelativePerformerModel :=
  mkModel (hparams self) (positional_embedding self) (content_embedding self)
    (normal_ (class_query self)) (performer self) (output_layer self).

Definition __init__ (cfg : Config) : result RelativePerformerModel :=
  positional_embedding <-
    LearnableSinusoidEncoding_new (pos_scales cfg * 2) (max_pos cfg * 2) ;;
  content_embedding <- Linear_new (in_features cfg) (dim cfg) ;;
  class_query <- torch_Tensor (dim cfg) ;;
  performer <-
    RelativePerformer_new
      (mkArgs (dim cfg) (depth cfg) (heads cfg) (pos_dims cfg) (pos_scales cfg)) ;;
  output_layer <- Linear_new (dim cfg) (num_classes cfg) ;;
  Ok (reset_parameters
        (mkModel cfg positional_embedding content_embedding class_query
           performer output_layer)).

(** Embeddings [bs, nx, ny, d] to embeddings [bs, nx*ny, d] and the
    positions of the grid cells. *)
Definition _flatten_to_sequence (input : Tensor) : result (Tensor * Tensor) :=
  let device := device input in
  let dtype := dtype input in
  match shape input with
  | _ :: nx :: ny :: _ =>
      let x_pos := arange nx device dtype in
      let y_pos := arange ny device dtype in
      grids <- meshgrid x_pos y_pos ;;
      positions <- stack_last grids ;;
      embeddings <- rearrange_b_x_y_d__b_xy_d input ;;
      positions <- rearrange_x_y_d__1_xy_d positions ;;
      Ok (embeddings, positions)
  | _ => Raise ValueError
  end.

Definition _compute_positional_embeddings
    (self : RelativePerformerModel) (positions : Tensor) : result Tensor :=
  rearrange_b_n_p_d__b_n_pd
    (LearnableSinusoidEncoding_call (positional_embedding self) positions).

(** Class query element in front of both sequences. *)
Definition _add_class_query
    (self : RelativePerformerModel) (embedding pos_embedding : Tensor)
  : result (Tensor * Tensor) :=
  match shape pos_embedding with
  | bs :: (_ :: _) as tl =>
      let pos_embedding_dim := last tl 0 in
      q <- index_None_None_slice (class_query self) ;;
      q <- expand q [bs; 1; 1] ;;
      embedding <- cat1 q embedding ;;
      pos_embedding <- cat1 (zeros [1; 1; pos_embedding_dim]) pos_embedding ;;
      Ok (embedding, pos_embedding)
  | _ => Raise ValueError
  end.

(* ----------------------------------------------------------------- *)
(** *** Methods as state transformers on [self] *)

Definition Method (A : Type) : Type :=
  RelativePerformerModel -> result A * RelativePerformerModel.

Definition mbind {A B : Type} (c : Method A) (k : A -> Method B) : Method B :=
  fun self =>
    match c self with
    | (Ok a, self') => k a self'
    | (Raise e, self') => (Raise e, self')
    end.

Definition get_self : Method RelativePerformerModel :=
  fun self => (Ok self, self).

Definition lift {A : Type} (r : result A) : Method A :=
  fun self => (r, self).

(** [self.performer(embedding, positions)]: the only call of [forward]
    into a module that may keep state. *)
Definition performer_call (embedding positions : Tensor) : Method Tensor :=
  fun self =>
    let p := performer self in
    let (out, st) :=
      performer_forward (rp_args p) (rp_state p) embedding positions in
    (out,
     mkModel (hparams self) (positional_embedding self)
       (content_embedding self) (class_query self)
       (mkPerformer (rp_args p) st) (output_layer self)).

Notation "x <~ c ;; k" := (mbind c (fun x => k))
  (at level 61, c at next level, right associativity).
Notation "' p <~ c ;; k" := (mbind c (fun p => k))
  (at level 61, p pattern, c at next level, right associativity).

Definition forward (x : Tensor) : Method Tensor :=
  self <~ get_self ;;
  embedding <~ lift (Linear_call (content_embedding self) x) ;;
  '(embedding, positions) <~ lift (_flatten_to_sequence embedding) ;;
  positions <~ lift (_compute_positional_embeddings self positions) ;;
  (* First element contains class prediction *)
  out <~ performer_call embedding positions ;;
  out <~ lift (select_1_0 out) ;;
  lift (Linear_call (output_layer self) out).

(** The two sequences [forward] has built when it reaches the call of the
    performer: its first three statements. *)
Definition performer_inputs (self : RelativePerformerModel) (x : Tensor)
  : result (Tensor * Tensor) :=
  embedding <- Linear_call (content_embedding self) x ;;
  '(embedding, positions) <- _flatten_to_sequence embedding ;;
  positions <- _compute_positional_embeddings self positions ;;
  Ok (embedding, positions).

(* ----------------------------------------------------------------- *)
(** *** Shape invariant of a model and contracts of the capability *)

(** The parameter shapes [__init__] sets up for a configuration; training
    changes values, not shapes. *)
Record wf_model (cfg : Config) (m : RelativePerformerModel) : Prop := {
  wf_hparams : hparams m = cfg;
  wf_enc_dim : enc_dim (positional_embedding m) = (pos_scales cfg * 2)%Z;
  wf_enc_max : max_timescale_init (positional_embedding m) = (max_pos cfg * 2)%Z;
  wf_bands : num_bands (positional_embedding m) = Z.to_nat (pos_scales cfg);
  wf_content : wf_Linear (content_embedding m);
  wf_content_in : l_in_features (content_embedding m) = Z.to_nat (in_features cfg);
  wf_content_out : l_out_features (content_embedding m) = Z.to_nat (dim cfg);
  wf_query_shape : shape (class_query m) = [Z.to_nat (dim cfg)];
  wf_query : wf_tensor (class_query m);
  wf_args : rp_args (performer m) =
            mkArgs (dim cfg) (depth cfg) (heads cfg) (pos_dims cfg) (pos_scales cfg);
  wf_output : wf_Linear (output_layer m);
  wf_output_in : l_in_features (output_layer m) = Z.to_nat (dim cfg);
  wf_output_out : l_out_features (output_layer m) = Z.to_nat (num_classes cfg)
}.

(** The consumed interface of the spec, section 4.4: content embeddings
    [batch, seq, dim] and one positional embedding per sequence element,
    with the same batch or a batch of one, give outputs [batch, seq, dim]. *)
Definition AttentionContract : Prop :=
  forall (a : RelativePerformerArgs) (st : PerformerState)
         (e p : Tensor) (b b' n w : nat),
    wf_tensor e -> wf_tensor p ->
    shape e = [b; n; Z.to_nat (rp_dim a)] ->
    shape p = [b'; n; w] ->
    b' = b \/ b' = 1 ->
    exists out,
      fst (performer_forward a st e p) = Ok out /\
      shape out = [b; n; Z.to_nat (rp_dim a)] /\
      wf_tensor out.


End Layers.

(* ================================================================= *)
(** ** Training and validation steps, and the script *)

Section Steps.

Context {S : Scalars} {E : External}.

(** [x.permute(0, 2, 3, 1)]: entry [(i, j, k, l)] of the result is entry
    [(i, l, j, k)] of [x]; a tensor of another rank is refused. *)
Definition permute_0_2_3_1 (t : Tensor) : result Tensor :=
  match shape t with
  | [b; c; w; h] =>
      Ok (mkTensor (device t) (dtype t) [b; w; h; c]
            (flat_map
               (fun i =>
                  flat_map
                    (fun j =>
                       flat_map
                         (fun k =>
                            flat_map
                              (fun l =>
                                 opt_list
                                   (nth_error (data t)
                                      (((i * c + l) * w + j) * h + k)))
                              (seq 0 c))
                         (seq 0 h))
                    (seq 0 w))
               (seq 0 b)))
  | _ => Raise RuntimeError
  end.

(** What the steps use from torch and pytorch_lightning: the labels of a
    batch, [nn.CrossEntropyLoss] and the state of a [pl.metrics.Accuracy]
    with its update on a call. *)
Class Lightning : Type := {
  Labels : Type;
  CrossEntropyLoss : Tensor -> Labels -> result scalar;
  Metric : Type;
  Accuracy : Metric;
  Accuracy_call : Metric -> Tensor -> Labels -> result Metric
}.

Context {L : Lightning}.

(** One call of [self.log(name, metric, on_step=, on_epoch=, prog_bar=)]. *)
Record LogEntry : Type := mkLog {
  log_name : String.string;
  log_on_step : bool;
  log_on_epoch : bool;
  log_prog_bar : bool
}.

(** [self] as the steps see it: the attributes of [forward], the two
    metrics and what has been logged. *)
Record LightningModule : Type := mkModule {
  net : RelativePerformerModel;
  train_acc : Metric;
  val_acc : Metric;
  logged : list LogEntry
}.

Definition Step (A : Type) : Type :=
  LightningModule -> result A * LightningModule.

Definition sbind {A B : Type} (c : Step A) (k : A -> Step B) : Step B :=
  fun self =>
    match c self with
    | (Ok a, self') => k a self'
    | (Raise e, self') => (Raise e, self')
    end.

Definition slift {A : Type} (r : result A) : Step A :=
  fun self => (r, self).

(** [self(x)] *)
Definition call_self (x : Tensor) : Step Tensor :=
  fun self =>
    let (logits, net') := forward x (net self) in
    (logits, mkModule net' (train_acc self) (val_acc self) (logged self)).

(** [self.train_acc(logits, y)] and [self.val_acc(logits, y)] *)
Definition call_train_acc (logits : Tensor) (y : Labels) : Step unit :=
  fun self =>
    match Accuracy_call (train_acc self) logits y with
    | Ok acc => (Ok tt, mkModule (net self) acc (val_acc self) (logged self))
    | Raise e => (Raise e, self)
    end.

Definition call_val_acc (logits : Tensor) (y : Labels) : Step unit :=
  fun self =>
    match Accuracy_call (val_acc self) logits y with
    | Ok acc => (Ok tt, mkModule (net self) (train_acc self) acc (logged self))
    | Raise e => (Raise e, self)
    end.

Definition log (entry : LogEntry) : Step unit :=
  fun self =>
    (Ok tt,
     mkModule (net self) (train_acc self) (val_acc self)
       (logged self ++ [entry])).

Notation "x <-- c ;; k" := (sbind c (fun x => k))
  (at level 61, c at next level, right associativity).

Definition training_step (batch : Tensor * Labels) (batch_idx : nat)
  : Step scalar :=
  let (x, y) := batch in
  (* The datasets always input in the format (C, W, H) instead of
     (W, H, C). *)
  x <-- slift (permute_0_2_3_1 x) ;;
  logits <-- call_self x ;;
  loss <-- slift (CrossEntropyLoss logits y) ;;
  _ <-- call_train_acc logits y ;;
  _ <-- log (mkLog "train_acc"%string true true true) ;;
  slift (Ok loss).

Definition validation_step (batch : Tensor * Labels) (batch_idx : nat)
  : Step scalar :=
  let (x, y) := batch in
  x <-- slift (permute_0_2_3_1 x) ;;
  logits <-- call_self x ;;
  loss <-- slift (CrossEntropyLoss logits y) ;;
  _ <-- call_val_acc logits y ;;
  _ <-- log (mkLog "val_acc"%string true true false) ;;
  slift (Ok loss).



(** A fresh module: the network of [__init__], two new metrics, nothing
    logged. *)
Definition LightningModule_new (cfg : Config) : result LightningModule :=
  net <- __init__ cfg ;;
  Ok (mkModule net Accuracy Accuracy []).

End Steps.

(* ================================================================= *)
(** ** Small instances to run the model on *)

Module Demo.

(** Integers as scalars. *)
Definition ZScalars : Scalars :=
  {| scalar := Z;
     cast := fun _ k => Z.of_nat k;
     zero := 0%Z;
     add := Z.add;
     mul := Z.mul;
     sin := fun a => a;
     cos := fun a => Z.succ a;
     angle := Z.mul;
     draw := fun k => Z.of_nat (Datatypes.S k);
     timescale_init := fun _ _ i => Z.of_nat (Datatypes.S i) |}.

(** Constructors that refuse nothing and a performer that hands the
    content embeddings back and keeps no state. *)
Definition Echo : @External ZScalars :=
  {| encoding_check := fun _ _ => None;
     PerformerState := unit;
     performer_check := fun _ => None;
     performer_init := fun _ => tt;
     performer_forward := fun _ st e _ => (Ok e, st) |}.

(** The same, recording the shapes of every pair of sequences it is
    called with. *)
Definition Spy : @External ZScalars :=
  {| encoding_check := fun _ _ => None;
     PerformerState := list (list nat * list nat);
     performer_check := fun _ => None;
     performer_init := fun _ => [];
     performer_forward :=
       fun _ st e p => (Ok e, st ++ [(shape e, shape p)]) |}.

(** A performer whose constructor refuses non-positive [pos_dims] and
    [pos_scales], beside an encoder that refuses nothing. *)
Definition Strict : @External ZScalars :=
  {| encoding_check := fun _ _ => None;
     PerformerState := unit;
     performer_check :=
       fun a => if ((rp_pos_dims a <=? 0) || (rp_pos_scales a <=? 0))%Z
                then Some RuntimeError else None;
     performer_init := fun _ => tt;
     performer_forward := fun _ st e _ => (Ok e, st) |}.

Definition tensor (dev : Device) (dt : DType) (s : list nat) (d : list Z)
  : @Tensor ZScalars :=
  @mkTensor ZScalars dev dt s d.

(** [dim=3, depth=1, heads=1, pos_scales=2, in_features=1, pos_dims=2,
    max_pos=4, num_classes=5] *)
Definition cfg : Config := mkConfig 3 1 1 2 1 2 4 5.

(** The model [__init__] builds for [cfg] over [Echo]. *)
Definition model : @RelativePerformerModel ZScalars Echo :=
  @mkModel ZScalars Echo cfg
    (@mkEncoding ZScalars 4 8 [1; 2]%Z)
    (@mkLinear ZScalars 1 3 [[1]; [2]; [3]]%Z [4; 5; 6]%Z)
    (tensor cpu float32 [3] [1; 2; 3]%Z)
    (@mkPerformer ZScalars Echo (mkArgs 3 1 1 2 2) tt)
    (@mkLinear ZScalars 3 5
       [[1; 2; 3]; [4; 5; 6]; [7; 8; 9]; [10; 11; 12]; [13; 14; 15]]%Z
       [16; 17; 18; 19; 20]%Z).



(** [dim=1]: the one width [_add_class_query] can cope with. *)
Definition cfg_dim1 : Config := mkConfig 1 1 1 2 1 2 4 5.

Definition model_dim1 : @RelativePerformerModel ZScalars Echo :=
  @mkModel ZScalars Echo cfg_dim1
    (@mkEncoding ZScalars 4 8 [1; 2]%Z)
    (@mkLinear ZScalars 1 1 [[1]]%Z [2]%Z)
    (tensor cpu float32 [1] [1]%Z)
    (@mkPerformer ZScalars Echo (mkArgs 1 1 1 2 2) tt)
    (@mkLinear ZScalars 1 5 [[1]; [2]; [3]; [4]; [5]]%Z [6; 7; 8; 9; 10]%Z).

(** [model.to(dev)]: of the parameters only the class query records a
    device here. *)
Definition to (dev : Device) (m : @RelativePerformerModel ZScalars Echo)
  : @RelativePerformerModel ZScalars Echo :=
  @mkModel ZScalars Echo (hparams m) (positional_embedding m)
    (content_embedding m)
    (tensor dev (dtype (class_query m)) (shape (class_query m))
       (data (class_query m)))
    (performer m) (output_layer m).

(** [pos_scales=0] and [pos_dims=0]. *)
Definition cfg_zero : Config := mkConfig 3 1 1 0 1 0 4 5.

(** A grid of 1 x 2 cells with one feature, batch of 2. *)
Definition x : @Tensor ZScalars :=
  tensor cpu float32 [2; 1; 2; 1] [10; 20; 30; 40]%Z.


(** Content [1, 2, 1] and positional embeddings [1, 2, 3], on a device. *)
Definition emb (dev : Device) : @Tensor ZScalars :=
  tensor dev float32 [1; 2; 1] [7; 8]%Z.

Definition pos_emb (dev : Device) (dt : DType) : @Tensor ZScalars :=
  tensor dev dt [1; 2; 3] [1; 2; 3; 4; 5; 6]%Z.

(** Labels as class indices; a loss that adds the logits up; metrics that
    count their calls. *)
Definition Counting : @Lightning ZScalars :=
  {| Labels := list nat;
     CrossEntropyLoss :=
       fun logits _ =>
         Ok (fold_right Z.add 0%Z (@data ZScalars logits) : @scalar ZScalars);
     Metric := nat;
     Accuracy := 0;
     Accuracy_call := fun n _ _ => Ok (Datatypes.S n) |}.

(** A batch as the data modules deliver it, channels first:
    [2, 1, 1, 2]. *)
Definition batch : @Tensor ZScalars * list nat :=
  (tensor cpu float32 [2; 1; 1; 2] [10; 20; 30; 40]%Z, [0; 1]).

Definition module : @LightningModule ZScalars Echo Counting :=
  @mkModule ZScalars Echo Counting model 0 0 [].

(** Two channels on a grid of 2 x 3. *)
Definition x_channels_first : @Tensor ZScalars :=
  tensor cpu float32 [1; 2; 2; 3]
    [1; 2; 3; 4; 5; 6; 11; 12; 13; 14; 15; 16]%Z.

End Demo.

(* ================================================================= *)
(** * Facts *)

(** ** Lists in blocks *)

Lemma length_flat_map_uniform (A B : Type) (f : A -> list B) (k : nat) (l : list A) :
  (forall a, In a l -> length (f a) = k) ->
  length (flat_map f l) = length l * k.
Proof.
  induction l as [|a l IH]; intros Hk; simpl.
  - reflexivity.
  - rewrite length_app, IH, (Hk a).
    + reflexivity.
    + now left.
    + intros a' Ha'. apply Hk. now right.
Qed.

Lemma nth_error_flat_map_uniform (A B : Type) (f : A -> list B) (k : nat) :
  forall (l : list A) (i j : nat) (a : A),
    (forall a', In a' l -> length (f a') = k) ->
    nth_error l i = Some a ->
    j < k ->
    nth_error (flat_map f l) (i * k + j) = nth_error (f a) j.
Proof.
  induction l as [|a0 l IH]; intros i j a Hk Hi Hj.
  - destruct i; discriminate.
  - destruct i as [|i]; simpl in Hi |- *.
    + injection Hi as ->.
      apply nth_error_app1. rewrite Hk; [assumption | now left].
    + rewrite nth_error_app2; rewrite (Hk a0) by now left.
      * replace (k + i * k + j - k) with (i * k + j) by lia.
        apply IH; [|assumption..].
        intros a' Ha'. apply Hk. now right.
      * lia.
Qed.

Lemma nth_error_seq_0 (n i : nat) : i < n -> nth_error (seq 0 n) i = Some i.
Proof.
  intros Hi. rewrite nth_error_nth' with (d := 0) by now rewrite length_seq.
  now rewrite seq_nth.
Qed.

Lemma nth_error_repeat_lt (A : Type) (a : A) (n i : nat) :
  i < n -> nth_error (repeat a n) i = Some a.
Proof.
  revert i; induction n as [|n IH]; intros [|i] Hi; simpl; try lia.
  - reflexivity.
  - apply IH. lia.
Qed.

Lemma length_opt_list_nth_error (A : Type) (l : list A) (i : nat) :
  i < length l -> length (opt_list (nth_error l i)) = 1.
Proof.
  intros Hi. destruct (nth_error l i) eqn:Hn.
  - reflexivity.
  - apply nth_error_None in Hn. lia.
Qed.

Lemma length_block (A : Type) (k i : nat) (l : list A) :
  i * k + k <= length l -> length (block k i l) = k.
Proof.
  intros H. unfold block. rewrite length_firstn, length_skipn. lia.
Qed.

(** ** Metadata *)

Lemma Device_eqb_refl (d : Device) : Device_eqb d d = true.
Proof. destruct d; simpl; [reflexivity | apply Nat.eqb_refl]. Qed.

Lemma Device_eqb_eq (a b : Device) : Device_eqb a b = true <-> a = b.
Proof.
  destruct a as [|i], b as [|j]; simpl; split; intros H;
    try reflexivity; try discriminate.
  - apply Nat.eqb_eq in H. now subst.
  - injection H as ->. apply Nat.eqb_refl.
Qed.

Lemma DType_eqb_refl (d : DType) : DType_eqb d d = true.
Proof. now destruct d. Qed.

Lemma promote_types_idem (d : DType) : promote_types d d = d.
Proof. now destruct d. Qed.

Lemma shape_eqb_refl (s : list nat) : shape_eqb s s = true.
Proof.
  induction s as [|n s IH]; simpl; [reflexivity|].
  now rewrite Nat.eqb_refl, IH.
Qed.

Lemma shape_eqb_eq (s1 s2 : list nat) : shape_eqb s1 s2 = true <-> s1 = s2.
Proof.
  revert s2; induction s1 as [|n s1 IH]; intros [|m s2]; simpl;
    split; intros H; try reflexivity; try discriminate.
  - apply andb_true_iff in H as [Hn Hs].
    apply Nat.eqb_eq in Hn. apply IH in Hs. now subst.
  - injection H as -> ->. now rewrite Nat.eqb_refl, shape_eqb_refl.
Qed.

Lemma numel_app (s : list nat) (k : nat) : numel (s ++ [k]) = numel s * k.
Proof.
  induction s as [|n s IH]; simpl.
  - lia.
  - rewrite IH. lia.
Qed.

(** ** Tensor operations *)

Section TorchFacts.

Context {S : Scalars}.

Lemma ravel_3 (a b c i j k : nat) :
  i < a -> j < b -> k < c ->
  ravel [a; b; c] [i; j; k] 0 = Some ((i * b + j) * c + k).
Proof.
  intros Hi Hj Hk. cbn [ravel].
  apply Nat.ltb_lt in Hi, Hj, Hk. rewrite Hi, Hj, Hk. reflexivity.
Qed.

Lemma ravel_4 (a b c d i j k l : nat) :
  i < a -> j < b -> k < c -> l < d ->
  ravel [a; b; c; d] [i; j; k; l] 0 = Some (((i * b + j) * c + k) * d + l).
Proof.
  intros Hi Hj Hk Hl. cbn [ravel].
  apply Nat.ltb_lt in Hi, Hj, Hk, Hl. rewrite Hi, Hj, Hk, Hl. reflexivity.
Qed.

Lemma meshgrid_arange (nx ny : nat) (dev : Device) (dt : DType) :
  meshgrid (arange nx dev dt) (arange ny dev dt) =
  Ok [ mkTensor dev dt [nx; ny]
         (flat_map (fun a => repeat a ny) (map (cast dt) (seq 0 nx)));
       mkTensor dev dt [nx; ny]
         (flat_map (fun _ => map (cast dt) (seq 0 ny))
            (map (cast dt) (seq 0 nx))) ].
Proof.
  unfold meshgrid, arange. cbn [shape device dtype data length numel fold_right].
  rewrite Device_eqb_refl, DType_eqb_refl, !Nat.mul_1_r. reflexivity.
Qed.

(** The x grid and the y grid of [meshgrid], entry by entry. *)
Lemma x_grid_entry (dt : DType) (nx ny x y : nat) :
  x < nx -> y < ny ->
  nth_error (flat_map (fun a => repeat a ny) (map (cast dt) (seq 0 nx)))
    (x * ny + y) = Some (cast dt x).
Proof.
  intros Hx Hy.
  rewrite nth_error_flat_map_uniform with (a := cast dt x).
  - now apply nth_error_repeat_lt.
  - intros a' _. apply repeat_length.
  - rewrite nth_error_map, nth_error_seq_0 by assumption. reflexivity.
  - assumption.
Qed.

Lemma y_grid_entry (dt : DType) (nx ny x y : nat) :
  x < nx -> y < ny ->
  nth_error (flat_map (fun _ : scalar => map (cast dt) (seq 0 ny))
               (map (cast dt) (seq 0 nx)))
    (x * ny + y) = Some (cast dt y).
Proof.
  intros Hx Hy.
  rewrite nth_error_flat_map_uniform with (a := cast dt x).
  - rewrite nth_error_map, nth_error_seq_0 by assumption. reflexivity.
  - intros a' _. now rewrite length_map, length_seq.
  - rewrite nth_error_map, nth_error_seq_0 by assumption. reflexivity.
  - assumption.
Qed.

Lemma length_x_grid (dt : DType) (nx ny : nat) :
  length (flat_map (fun a => repeat a ny) (map (cast dt) (seq 0 nx))) = nx * ny.
Proof.
  rewrite length_flat_map_uniform with (k := ny).
  - now rewrite length_map, length_seq.
  - intros a' _. apply repeat_length.
Qed.

Lemma length_y_grid (dt : DType) (nx ny : nat) :
  length (flat_map (fun _ : scalar => map (cast dt) (seq 0 ny))
            (map (cast dt) (seq 0 nx))) = nx * ny.
Proof.
  rewrite length_flat_map_uniform with (k := ny).
  - now rewrite length_map, length_seq.
  - intros a' _. now rewrite length_map, length_seq.
Qed.

(** Storage of the stacked grids: cell after cell, x before y. *)
Lemma stacked_grid_entry (dt : DType) (nx ny x y j : nat) :
  x < nx -> y < ny -> j < 2 ->
  nth_error
    (flat_map
       (fun i =>
          opt_list (nth_error
                      (flat_map (fun a => repeat a ny)
                         (map (cast dt) (seq 0 nx))) i)
          ++ opt_list (nth_error
                         (flat_map (fun _ : scalar => map (cast dt) (seq 0 ny))
                            (map (cast dt) (seq 0 nx))) i)
          ++ [])
       (seq 0 (nx * ny)))
    ((x * ny + y) * 2 + j)
  = nth_error [cast dt x; cast dt y] j.
Proof.
  intros Hx Hy Hj.
  assert (Hi : x * ny + y < nx * ny) by nia.
  rewrite nth_error_flat_map_uniform with (a := x * ny + y); try assumption.
  - now rewrite x_grid_entry, y_grid_entry.
  - intros i Hin. apply in_seq in Hin.
    rewrite !length_app, !length_opt_list_nth_error.
    + reflexivity.
    + rewrite length_y_grid. lia.
    + rewrite length_x_grid. lia.
  - now apply nth_error_seq_0.
Qed.

Lemma length_stacked_grid (dt : DType) (nx ny : nat) :
  length
    (flat_map
       (fun i =>
          opt_list (nth_error
                      (flat_map (fun a => repeat a ny)
                         (map (cast dt) (seq 0 nx))) i)
          ++ opt_list (nth_error
                         (flat_map (fun _ : scalar => map (cast dt) (seq 0 ny))
                            (map (cast dt) (seq 0 nx))) i)
          ++ [])
       (seq 0 (nx * ny)))
  = nx * ny * 2.
Proof.
  rewrite length_flat_map_uniform with (k := 2).
  - now rewrite length_seq.
  - intros i Hin. apply in_seq in Hin.
    rewrite !length_app, !length_opt_list_nth_error.
    + reflexivity.
    + rewrite length_y_grid. lia.
    + rewrite length_x_grid. lia.
Qed.

(** What [_flatten_to_sequence] returns on a tensor of rank 4. *)
Lemma flatten_to_sequence_eq (input : Tensor) (b nx ny d : nat) :
  shape input = [b; nx; ny; d] ->
  _flatten_to_sequence input =
  Ok (mkTensor (device input) (dtype input) [b; nx * ny; d] (data input),
      mkTensor (device input) (dtype input) [1; nx * ny; 2]
        (flat_map
           (fun i =>
              opt_list (nth_error
                          (flat_map (fun a => repeat a ny)
                             (map (cast (dtype input)) (seq 0 nx))) i)
              ++ opt_list (nth_error
                             (flat_map
                                (fun _ : scalar =>
                                   map (cast (dtype input)) (seq 0 ny))
                                (map (cast (dtype input)) (seq 0 nx))) i)
              ++ [])
           (seq 0 (nx * ny)))).
Proof.
  intros Hs. unfold _flatten_to_sequence. rewrite Hs, meshgrid_arange.
  cbn [bind]. unfold stack_last.
  cbn [forallb shape device dtype map fold_left].
  rewrite shape_eqb_refl, Device_eqb_refl, promote_types_idem.
  cbn [andb negb bind].
  unfold rearrange_b_x_y_d__b_xy_d. rewrite Hs. cbn [bind].
  unfold rearrange_x_y_d__1_xy_d.
  cbn [shape app length device dtype data bind numel fold_right flat_map].
  rewrite Nat.mul_1_r. reflexivity.
Qed.


End TorchFacts.

(** ** Layers and the model *)

Section ModelFacts.

Context {S : Scalars} {E : External}.

Lemma length_affine (l : Linear) (x : list scalar) :
  wf_Linear l -> length (affine l x) = l_out_features l.
Proof.
  intros [Hw Hb]. unfold affine.
  rewrite length_map, length_combine, Hw, Hb. apply Nat.min_id.
Qed.

Lemma Linear_call_eq (l : Linear) (x : Tensor) (lead : list nat) :
  shape x = lead ++ [l_in_features l] ->
  Linear_call l x =
  Ok (mkTensor (device x) (dtype x) (lead ++ [l_out_features l])
        (flat_map (fun i => affine l (block (l_in_features l) i (data x)))
           (seq 0 (numel lead)))).
Proof.
  intros Hs. unfold Linear_call.
  rewrite Hs, rev_unit, Nat.eqb_refl, rev_involutive. reflexivity.
Qed.

Lemma Linear_call_wf (l : Linear) (x y : Tensor) :
  wf_Linear l -> Linear_call l x = Ok y -> wf_tensor y.
Proof.
  intros Hl. unfold Linear_call.
  destruct (rev (shape x)) as [|k lead]; [discriminate|].
  destruct (negb (k =? l_in_features l)); [discriminate|].
  intros [= <-]. unfold wf_tensor. cbn [data shape].
  rewrite numel_app, length_flat_map_uniform with (k := l_out_features l).
  - now rewrite length_seq.
  - intros i _. now apply length_affine.
Qed.

Lemma Linear_new_wf (i o : Z) (l : Linear) :
  Linear_new i o = Ok l ->
  wf_Linear l /\ l_in_features l = Z.to_nat i /\ l_out_features l = Z.to_nat o.
Proof.
  unfold Linear_new. destruct ((i <? 0) || (o <? 0))%Z; [discriminate|].
  intros [= <-]. unfold wf_Linear. cbn.
  now rewrite !length_map, !length_seq.
Qed.


Lemma length_encode (e : LearnableSinusoidEncoding) (p : scalar) :
  length (encode e p) = 2 * num_bands e.
Proof.
  unfold encode, num_bands.
  rewrite length_flat_map_uniform with (k := 2); [lia | reflexivity].
Qed.

Lemma LearnableSinusoidEncoding_call_wf
    (e : LearnableSinusoidEncoding) (x : Tensor) :
  wf_tensor x -> wf_tensor (LearnableSinusoidEncoding_call e x).
Proof.
  unfold wf_tensor, LearnableSinusoidEncoding_call. cbn [data shape].
  intros Hx.
  rewrite numel_app, length_flat_map_uniform with (k := 2 * num_bands e).
  - now rewrite Hx.
  - intros p _. apply length_encode.
Qed.

(** [_compute_positional_embeddings] on positions of rank 3. *)
Lemma compute_positional_embeddings_eq
    (self : RelativePerformerModel) (positions : Tensor) (b n p : nat) :
  shape positions = [b; n; p] ->
  _compute_positional_embeddings self positions =
  Ok (mkTensor (device positions) (dtype positions)
        [b; n; p * (2 * num_bands (positional_embedding self))]
        (flat_map (encode (positional_embedding self)) (data positions))).
Proof.
  intros Hs.
  unfold _compute_positional_embeddings, rearrange_b_n_p_d__b_n_pd,
    LearnableSinusoidEncoding_call.
  cbn [shape device dtype data]. rewrite Hs. reflexivity.
Qed.

Lemma compute_positional_embeddings_wf
    (self : RelativePerformerModel) (positions t : Tensor) :
  wf_tensor positions ->
  _compute_positional_embeddings self positions = Ok t ->
  wf_tensor t.
Proof.
  intros Hp. unfold _compute_positional_embeddings, rearrange_b_n_p_d__b_n_pd.
  pose proof (LearnableSinusoidEncoding_call_wf (positional_embedding self) Hp)
    as Hw.
  destruct (shape (LearnableSinusoidEncoding_call (positional_embedding self)
                     positions)) as [|b [|n [|p [|d [|? ?]]]]] eqn:Hs;
    try discriminate.
  intros [= <-]. unfold wf_tensor in *. rewrite Hs in Hw.
  cbn [data shape LearnableSinusoidEncoding_call] in Hw |- *.
  rewrite Hw. cbn [numel fold_right]. lia.
Qed.

(** The constructor sets up the shapes of [wf_model]. *)
Lemma init_wf (cfg : Config) (m : RelativePerformerModel) :
  __init__ cfg = Ok m -> wf_model cfg m.
Proof.
  unfold __init__, LearnableSinusoidEncoding_new, RelativePerformer_new,
    torch_Tensor.
  destruct (encoding_check _ _); [discriminate|]. cbn [bind].
  destruct (Linear_new (in_features cfg) (dim cfg)) as [lc|] eqn:Hc;
    [|discriminate]. cbn [bind].
  destruct (dim cfg <? 0)%Z eqn:Hd; [discriminate|]. cbn [bind].
  destruct (performer_check _); [discriminate|]. cbn [bind].
  destruct (Linear_new (dim cfg) (num_classes cfg)) as [lo|] eqn:Ho;
    [|discriminate]. cbn [bind].
  intros [= <-].
  apply Linear_new_wf in Hc as (? & ? & ?), Ho as (? & ? & ?).
  constructor; cbn; try assumption; try reflexivity.
  - unfold num_bands. cbn. now rewrite length_map, length_seq, Z.div_mul by lia.
  - unfold wf_tensor. cbn. rewrite length_map, length_seq, repeat_length. lia.
Qed.

(** What [forward] has built when it calls the performer. *)
Lemma performer_inputs_eq
    (cfg : Config) (m : RelativePerformerModel) (x : Tensor) (b nx ny : nat) :
  wf_model cfg m ->
  shape x = [b; nx; ny; Z.to_nat (in_features cfg)] ->
  exists e p,
    performer_inputs m x = Ok (e, p) /\
    shape e = [b; nx * ny; Z.to_nat (dim cfg)] /\
    shape p = [1; nx * ny; 2 * (2 * Z.to_nat (pos_scales cfg))] /\
    wf_tensor e /\ wf_tensor p /\
    device e = device x /\ dtype e = dtype x /\
    device p = device x /\ dtype p = dtype x /\
    Linear_call (content_embedding m) x
    = Ok (mkTensor (device e) (dtype e)
            [b; nx; ny; Z.to_nat (dim cfg)] (data e)).
Proof.
  intros Hm Hs. destruct Hm.
  unfold performer_inputs.
  rewrite (@Linear_call_eq (content_embedding m) x [b; nx; ny])
    by (rewrite Hs, wf_content_in0; reflexivity).
  cbn [bind app].
  rewrite flatten_to_sequence_eq
    with (b := b) (nx := nx) (ny := ny) (d := l_out_features (content_embedding m))
    by reflexivity.
  cbn [bind device dtype].
  rewrite compute_positional_embeddings_eq
    with (b := 1) (n := nx * ny) (p := 2) by reflexivity.
  cbn [bind device dtype].
  eexists. eexists. split; [reflexivity|].
  cbn [shape device dtype data].
  rewrite wf_bands0, wf_content_out0.
  repeat split.
  - unfold wf_tensor. cbn [data shape].
    rewrite length_flat_map_uniform with (k := Z.to_nat (dim cfg)).
    + rewrite length_seq. cbn [numel fold_right]. lia.
    + intros i _. rewrite length_affine by assumption. assumption.
  - unfold wf_tensor. cbn [data shape].
    rewrite length_flat_map_uniform
      with (k := 2 * num_bands (positional_embedding m)).
    + rewrite length_stacked_grid, wf_bands0. cbn [numel fold_right]. lia.
    + intros q _. apply length_encode.
Qed.

(** [forward] is its first three statements, then the call of the
    performer on what they built, then the read of index 0 and the output
    layer; [self] changes by what the performer leaves in its own state. *)
Lemma forward_unfold (x : Tensor) (self : RelativePerformerModel) :
  forward x self =
  match performer_inputs self x with
  | Raise e => (Raise e, self)
  | Ok (embedding, positions) =>
      let (out, st) :=
        performer_forward (rp_args (performer self))
          (rp_state (performer self)) embedding positions in
      (out <- out ;; out <- select_1_0 out ;;
       Linear_call (output_layer self) out,
       mkModel (hparams self) (positional_embedding self)
         (content_embedding self) (class_query self)
         (mkPerformer (rp_args (performer self)) st) (output_layer self))
  end.
Proof.
  unfold forward, performer_inputs, mbind, get_self, lift, performer_call.
  destruct (Linear_call (content_embedding self) x) as [emb|e]; cbn [bind];
    [|reflexivity].
  destruct (_flatten_to_sequence emb) as [[e1 p1]|e]; cbn [bind];
    [|reflexivity].
  destruct (_compute_positional_embeddings self p1) as [p2|e]; cbn [bind];
    [|reflexivity].
  destruct (performer_forward _ _ e1 p2) as [[out|e] st]; cbn [bind];
    [|reflexivity].
  destruct (select_1_0 out) as [o|e]; cbn [bind]; reflexivity.
Qed.

End ModelFacts.

(** ** The instances of [Demo] *)

Lemma Demo_init_cfg : @__init__ Demo.ZScalars Demo.Echo Demo.cfg = Ok Demo.model.
Proof. reflexivity. Qed.


Lemma Demo_init_cfg_dim1 :
  @__init__ Demo.ZScalars Demo.Echo Demo.cfg_dim1 = Ok Demo.model_dim1.
Proof. reflexivity. Qed.



(* ================================================================= *)
(** * The claims *)

Section Claims.

Context {S : Scalars} {E : External}.

(** C1 (the code departs from it).  The sequences [forward] hands to the
    performer hold the grid cells only: the content sequence has length
    [nx*ny], not [1 + nx*ny]; its element 0 is the content embedding of
    grid cell (0, 0); and the class query is never read, since putting any
    other tensor in its place leaves both sequences as they were.
    [_add_class_query] is not called. *)
Theorem forward_feeds_grid_cells_only :
  forall (cfg : Config) (m : RelativePerformerModel) (x : Tensor)
         (b nx ny : nat),
    wf_model cfg m ->
    shape x = [b; nx; ny; Z.to_nat (in_features cfg)] ->
    exists e p content,
      performer_inputs m x = Ok (e, p) /\
      shape e = [b; nx * ny; Z.to_nat (dim cfg)] /\
      shape p = [1; nx * ny; 2 * (2 * Z.to_nat (pos_scales cfg))] /\
      Linear_call (content_embedding m) x = Ok content /\
      (forall i k,
          i < b -> 0 < nx -> 0 < ny -> k < Z.to_nat (dim cfg) ->
          item e [i; 0; k] = item content [i; 0; 0; k]) /\
      (forall q : Tensor,
          performer_inputs
            (mkModel (hparams m) (positional_embedding m)
               (content_embedding m) q (performer m) (output_layer m)) x
          = Ok (e, p)).
Proof.
  intros cfg m x b nx ny Hm Hs.
  destruct (performer_inputs_eq x Hm Hs)
    as (e & p & Hin & Hse & Hsp & _ & _ & _ & _ & _ & _ & Hc).
  exists e, p. eexists. split; [exact Hin|].
  split; [exact Hse|]. split; [exact Hsp|]. split; [exact Hc|]. split.
  - intros i k Hi Hx Hy Hk. unfold item. cbn [shape data]. rewrite Hse.
    rewrite ravel_3 by (try assumption; nia).
    rewrite ravel_4 by assumption.
    f_equal. lia.
  - intros q. exact Hin.
Qed.



(** On a grid without cells the read of index 0 fails. *)
Lemma forward_empty_grid :
  AttentionContract ->
  forall (cfg : Config) (m : RelativePerformerModel) (x : Tensor)
         (b nx ny : nat),
    wf_model cfg m ->
    wf_tensor x ->
    shape x = [b; nx; ny; Z.to_nat (in_features cfg)] ->
    nx * ny = 0 ->
    fst (forward x m) = Raise IndexError.
Proof.
  intros Hatt cfg m x b nx ny Hm Hx Hs Hn.
  destruct (performer_inputs_eq x Hm Hs)
    as (e & p & Hin & Hse & Hsp & He & Hp & _).
  destruct Hm.
  rewrite forward_unfold, Hin.
  destruct (Hatt (rp_args (performer m)) (rp_state (performer m)) e p
              b 1 (nx * ny) (2 * (2 * Z.to_nat (pos_scales cfg))))
    as (out & Hout & Hso & _); try assumption.
  - rewrite wf_args0. exact Hse.
  - now right.
  - destruct (performer_forward _ _ e p) as [r st]. cbn [fst] in Hout |- *.
    subst r. cbn [bind]. unfold select_1_0. rewrite Hso, Hn. reflexivity.
Qed.


(** C7.  The encoder is built with [max_timescale_init = 2 * max_pos]. *)
Theorem init_max_timescale :
  forall (cfg : Config) (m : RelativePerformerModel),
    __init__ cfg = Ok m ->
    max_timescale_init (positional_embedding m) = (2 * max_pos cfg)%Z.
Proof.
  intros cfg m Hinit. destruct (init_wf _ Hinit).
  rewrite wf_enc_max0. lia.
Qed.


End Claims.

(** ** [_add_class_query] *)

Section ClassQuery.

Context {S : Scalars} {E : External}.

Lemma expand_data_last_axis (d : nat) (l : list scalar) :
  d <> 1 -> expand_data [d] [1] l = Raise RuntimeError.
Proof.
  intros Hd. cbn [expand_data].
  apply Nat.eqb_neq in Hd. rewrite Hd. reflexivity.
Qed.

(** [class_query[None, None, :].expand(bs, 1, 1)] asks the last axis, of
    size [dim], to become 1. *)
Lemma expand_class_query_fails (q : Tensor) (d bs : nat) :
  shape q = [1; 1; d] -> d <> 1 ->
  expand q [bs; 1; 1] = Raise RuntimeError.
Proof.
  intros Hs Hd. unfold expand. rewrite Hs.
  cbn [length Nat.ltb Nat.leb Nat.sub repeat app].
  apply Nat.eqb_neq in Hd.
  destruct bs as [|[|bs]]; cbn [expand_data Nat.eqb seq fold_right bind];
    rewrite Hd; reflexivity.
Qed.

(** C10.  [_add_class_query] returns only when the class query has one
    entry ([dim = 1]); for every [dim > 1] it raises, and the error is the
    one of [expand(bs, 1, 1)] whenever the shape of [pos_embedding] could
    be unpacked. *)
Theorem add_class_query_needs_dim_1 :
  forall (m : RelativePerformerModel) (embedding pos_embedding : Tensor)
         (d : nat),
    shape (class_query m) = [d] ->
    (forall r, _add_class_query m embedding pos_embedding = Ok r -> d = 1) /\
    (1 < d ->
     exists e, _add_class_query m embedding pos_embedding = Raise e) /\
    (1 < d -> 2 <= length (shape pos_embedding) ->
     _add_class_query m embedding pos_embedding = Raise RuntimeError).
Proof.
  intros m embedding pos_embedding d Hq.
  assert (Hfail : d <> 1 ->
                  exists e, _add_class_query m embedding pos_embedding = Raise e
                            /\ (2 <= length (shape pos_embedding) ->
                                e = RuntimeError)).
  { intros Hd. unfold _add_class_query.
    destruct (shape pos_embedding) as [|bs [|n tl]].
    - exists ValueError. split; [reflexivity | cbn; lia].
    - exists ValueError. split; [reflexivity | cbn; lia].
    - unfold index_None_None_slice. rewrite Hq. cbn [bind].
      rewrite expand_class_query_fails with (d := d) by (assumption || reflexivity).
      exists RuntimeError. split; reflexivity. }
  split; [|split].
  - intros r Hr. destruct (Nat.eq_dec d 1) as [|Hd]; [assumption|].
    destruct (Hfail Hd) as (e & He & _). congruence.
  - intros Hd. destruct Hfail as (e & He & _); [lia|]. eauto.
  - intros Hd Hrank. destruct Hfail as (e & He & Herr); [lia|].
    now rewrite He, Herr.
Qed.

Lemma cat1_device (a b t : Tensor) :
  cat1 a b = Ok t -> device b = device a /\ device t = device a.
Proof.
  unfold cat1.
  destruct (shape a) as [|a0 [|a1 ar]]; try discriminate.
  destruct (shape b) as [|b0 [|b1 br]]; try discriminate.
  destruct (negb _); [discriminate|].
  destruct (Device_eqb (device a) (device b)) eqn:Hd; [|discriminate].
  intros [= <-]. apply Device_eqb_eq in Hd. now split.
Qed.

(** The positional prefix is made by [torch.zeros(1, 1, pos_embedding_dim)]
    with neither [device=] nor [dtype=]: [_add_class_query] can return
    only for positional embeddings that sit on the default device. *)
Lemma add_class_query_default_device
    (m : RelativePerformerModel) (embedding pos_embedding : Tensor)
    (r : Tensor * Tensor) :
  _add_class_query m embedding pos_embedding = Ok r ->
  device pos_embedding = default_device.
Proof.
  unfold _add_class_query.
  destruct (shape pos_embedding) as [|bs [|n tl]]; try discriminate.
  destruct (index_None_None_slice (class_query m)) as [q|]; [|discriminate].
  cbn [bind].
  destruct (expand q [bs; 1; 1]) as [q'|]; [|discriminate]. cbn [bind].
  destruct (cat1 q' embedding) as [e'|]; [|discriminate]. cbn [bind].
  destruct (cat1 (zeros _) pos_embedding) as [p'|] eqn:Hc; [|discriminate].
  intros _. apply cat1_device in Hc as [Hc _]. exact Hc.
Qed.


End ClassQuery.

(* ================================================================= *)
(** * Runs on the instances of [Demo] *)

(** The performer sees the grid cells only: a batch of 2 grids of 1 x 2
    cells reaches it as sequences of length 2. *)
Example spy_records_grid_length :
  exists m,
    @__init__ Demo.ZScalars Demo.Spy Demo.cfg = Ok m /\
    rp_state (performer (snd (@forward Demo.ZScalars Demo.Spy Demo.x m)))
    = [([2; 2; 3], [1; 2; 8])].
Proof. eexists. split; reflexivity. Qed.

(** At [dim = 1], with everything on the default device,
    [_add_class_query] does return: query and zero prefix in front. *)
Example add_class_query_dim_1 :
  @_add_class_query Demo.ZScalars Demo.Echo Demo.model_dim1
    (Demo.emb cpu) (Demo.pos_emb cpu float32)
  = Ok (Demo.tensor cpu float32 [1; 3; 1] [1; 7; 8]%Z,
        Demo.tensor cpu float32 [1; 3; 3] [0; 0; 0; 1; 2; 3; 4; 5; 6]%Z).
Proof. reflexivity. Qed.

(** A performer whose constructor refuses [pos_dims <= 0] makes
    [__init__] refuse it; one that refuses nothing does not. *)
Example init_with_strict_performer :
  @__init__ Demo.ZScalars Demo.Strict Demo.cfg_zero = Raise RuntimeError.
Proof. reflexivity. Qed.

Lemma forward_feeds_grid_cells_only_witness :
  shape Demo.x = [2; 1; 2; Z.to_nat (in_features Demo.cfg)] /\
  exists e p : @Tensor Demo.ZScalars,
    @performer_inputs Demo.ZScalars Demo.Echo Demo.model Demo.x = Ok (e, p) /\
    shape e = [2; 1 * 2; Z.to_nat (dim Demo.cfg)].
Proof.
  split; [reflexivity|].
  destruct (@forward_feeds_grid_cells_only Demo.ZScalars Demo.Echo
              Demo.cfg Demo.model Demo.x 2 1 2
              (init_wf _ Demo_init_cfg) eq_refl)
    as (e & p & c & Hin & Hse & _).
  exists e, p. split; assumption.
Defined.






(** C6 (the code departs from it).  [_flatten_to_sequence] puts its
    position grid on the device and in the dtype of its input, here
    [cuda:0] and [float64]; the zero prefix of [_add_class_query] is on
    [cpu] in [float32] whatever its input is, so that with model and input
    on [cuda:0] the concatenation with the positional embeddings raises. *)
Theorem zero_prefix_ignores_input_device :
  (exists e p : @Tensor Demo.ZScalars,
      _flatten_to_sequence
        (Demo.tensor (cuda 0) float64 [1; 1; 2; 1] [7; 8]%Z) = Ok (e, p) /\
      device p = cuda 0 /\ dtype p = float64) /\
  device (@zeros Demo.ZScalars [1; 1; 3]) = cpu /\
  dtype (@zeros Demo.ZScalars [1; 1; 3]) = float32 /\
  cat1 (@zeros Demo.ZScalars [1; 1; 3]) (Demo.pos_emb (cuda 0) float64)
  = Raise RuntimeError /\
  @_add_class_query Demo.ZScalars Demo.Echo
    (Demo.to (cuda 0) Demo.model_dim1)
    (Demo.emb (cuda 0)) (Demo.pos_emb (cuda 0) float64)
  = Raise RuntimeError.
Proof.
  split; [eexists; eexists; repeat split|]. repeat split.
Qed.

Lemma init_max_timescale_witness :
  @__init__ Demo.ZScalars Demo.Echo Demo.cfg = Ok Demo.model /\
  max_timescale_init (positional_embedding Demo.model)
  = (2 * max_pos Demo.cfg)%Z.
Proof.
  split; [reflexivity|].
  apply (@init_max_timescale Demo.ZScalars Demo.Echo Demo.cfg Demo.model eq_refl).
Defined.




Lemma add_class_query_needs_dim_1_witness :
  shape (class_query Demo.model) = [3] /\
  @_add_class_query Demo.ZScalars Demo.Echo Demo.model
    (Demo.tensor cpu float32 [1; 2; 3] [1; 2; 3; 4; 5; 6]%Z)
    (Demo.pos_emb cpu float32)
  = Raise RuntimeError.
Proof.
  split; [reflexivity|].
  destruct (@add_class_query_needs_dim_1 Demo.ZScalars Demo.Echo Demo.model
              (Demo.tensor cpu float32 [1; 2; 3] [1; 2; 3; 4; 5; 6]%Z)
              (Demo.pos_emb cpu float32) 3 eq_refl)
    as (_ & _ & H).
  apply H; repeat constructor.
Defined.

(* ================================================================= *)
(** * Further properties *)

(** ** [_flatten_to_sequence] *)

Section FlattenFacts.

Context {S : Scalars}.

(** The grids are built before the pattern is matched: with three axes,
    or more than four, it is the pattern that fails. *)
Lemma flatten_to_sequence_pattern_fails (input : Tensor) (a nx ny : nat)
    (rest : list nat) :
  shape input = a :: nx :: ny :: rest ->
  length rest <> 1 ->
  _flatten_to_sequence input = Raise EinopsError.
Proof.
  intros Hs Hrest.
  unfold _flatten_to_sequence. rewrite Hs, meshgrid_arange. cbn [bind].
  unfold stack_last. cbn [forallb shape device dtype map fold_left].
  rewrite shape_eqb_refl, Device_eqb_refl. cbn [andb negb bind].
  unfold rearrange_b_x_y_d__b_xy_d. rewrite Hs.
  destruct rest as [|d [|d' rest]]; try reflexivity.
  now elim Hrest.
Qed.

Lemma flatten_to_sequence_inv (input : Tensor) (r : Tensor * Tensor) :
  _flatten_to_sequence input = Ok r ->
  exists b nx ny d, shape input = [b; nx; ny; d].
Proof.
  intros Hf.
  destruct (shape input) as [|b [|nx [|ny rest]]] eqn:Hs;
    try (unfold _flatten_to_sequence in Hf; rewrite Hs in Hf; discriminate).
  destruct rest as [|d [|d' rest]].
  - rewrite (flatten_to_sequence_pattern_fails _ Hs) in Hf;
      [discriminate | cbn; lia].
  - eauto.
  - rewrite (flatten_to_sequence_pattern_fails _ Hs) in Hf;
      [discriminate | cbn; lia].
Qed.

(** X1.  [_flatten_to_sequence] returns exactly on tensors of rank 4.
    With fewer than three axes the unpacking [nx, ny = input.shape[1:3]]
    fails (ValueError); with three axes, or more than four, the pattern
    ['b x y d'] does not fit (EinopsError). *)
Theorem flatten_to_sequence_rank :
  forall input : Tensor,
    match length (shape input) with
    | 0 | 1 | 2 => _flatten_to_sequence input = Raise ValueError
    | 4 => exists r, _flatten_to_sequence input = Ok r
    | _ => _flatten_to_sequence input = Raise EinopsError
    end.
Proof.
  intros input.
  destruct (shape input) as [|a [|nx [|ny [|d [|d' rest]]]]] eqn:Hs;
    cbn [length].
  - unfold _flatten_to_sequence. now rewrite Hs.
  - unfold _flatten_to_sequence. now rewrite Hs.
  - unfold _flatten_to_sequence. now rewrite Hs.
  - apply (flatten_to_sequence_pattern_fails _ Hs). cbn. lia.
  - eexists. apply (flatten_to_sequence_eq _ Hs).
  - apply (flatten_to_sequence_pattern_fails _ Hs). cbn. lia.
Qed.

(** X2.  Both sequences [_flatten_to_sequence] returns sit on the device
    of its input and have its dtype, and storage and shape agree in both
    when they do in the input. *)
Theorem flatten_to_sequence_keeps_device_dtype :
  forall (input embeddings positions : Tensor),
    wf_tensor input ->
    _flatten_to_sequence input = Ok (embeddings, positions) ->
    device embeddings = device input /\ dtype embeddings = dtype input /\
    device positions = device input /\ dtype positions = dtype input /\
    wf_tensor embeddings /\ wf_tensor positions.
Proof.
  intros input e p Hwf Hf.
  destruct (flatten_to_sequence_inv _ Hf) as (b & nx & ny & d & Hs).
  rewrite (flatten_to_sequence_eq _ Hs) in Hf. injection Hf as <- <-.
  cbn [device dtype]. repeat split.
  - unfold wf_tensor in *. cbn [data shape]. rewrite Hwf, Hs.
    cbn [numel fold_right]. lia.
  - unfold wf_tensor. cbn [data shape].
    rewrite length_stacked_grid. cbn [numel fold_right]. lia.
Qed.

End FlattenFacts.

Lemma flatten_to_sequence_keeps_device_dtype_witness :
  wf_tensor (Demo.tensor (cuda 1) float16 [1; 2; 1; 1] [3; 4]%Z) /\
  exists e p : @Tensor Demo.ZScalars,
    _flatten_to_sequence (Demo.tensor (cuda 1) float16 [1; 2; 1; 1] [3; 4]%Z)
    = Ok (e, p) /\
    device p = cuda 1 /\ dtype p = float16.
Proof.
  split; [reflexivity|].
  eexists. eexists. split; [reflexivity|].
  destruct (@flatten_to_sequence_keeps_device_dtype Demo.ZScalars
              (Demo.tensor (cuda 1) float16 [1; 2; 1; 1] [3; 4]%Z) _ _
              eq_refl eq_refl)
    as (_ & _ & Hd & Ht & _).
  split; [exact Hd | exact Ht].
Defined.

(** ** [_add_class_query], when it returns *)

Section ClassQueryFacts.

Context {S : Scalars} {E : External}.

Lemma cat1_eq (a b : Tensor) (a0 a1 b1 : nat) (rest : list nat) :
  shape a = a0 :: a1 :: rest ->
  shape b = a0 :: b1 :: rest ->
  device b = device a ->
  cat1 a b =
  Ok (mkTensor (device a) (promote_types (dtype a) (dtype b))
        (a0 :: (a1 + b1) :: rest)
        (flat_map
           (fun i => block (a1 * numel rest) i (data a)
                     ++ block (b1 * numel rest) i (data b))
           (seq 0 a0))).
Proof.
  intros Ha Hb Hd. unfold cat1. rewrite Ha, Hb, Hd.
  now rewrite Nat.eqb_refl, shape_eqb_refl, Device_eqb_refl.
Qed.

Lemma cat1_inv (a b t : Tensor) :
  cat1 a b = Ok t ->
  exists a0 a1 b1 rest,
    shape a = a0 :: a1 :: rest /\ shape b = a0 :: b1 :: rest /\
    device b = device a.
Proof.
  unfold cat1.
  destruct (shape a) as [|a0 [|a1 ar]]; try discriminate.
  destruct (shape b) as [|b0 [|b1 br]]; try discriminate.
  destruct (Nat.eqb a0 b0 && shape_eqb ar br) eqn:Hs; [|discriminate].
  destruct (Device_eqb (device a) (device b)) eqn:Hd; [|discriminate].
  intros _. apply andb_true_iff in Hs as [H0 Hr].
  apply Nat.eqb_eq in H0. apply shape_eqb_eq in Hr.
  apply Device_eqb_eq in Hd. subst. exists b0, a1, b1, br. auto.
Qed.

Lemma expand_meta (t t' : Tensor) (target : list nat) :
  expand t target = Ok t' ->
  shape t' = target /\ device t' = device t /\ dtype t' = dtype t.
Proof.
  unfold expand. destruct (length target <? length (shape t)); [discriminate|].
  destruct (expand_data _ target (data t)); [|discriminate].
  intros [= <-]. auto.
Qed.

(** Only a class query with a single entry passes
    [class_query[None, None, :].expand(bs, 1, 1)]. *)
Lemma expand_class_query_inv (q q' : Tensor) (s : list nat) (bs : nat) :
  shape q = 1 :: 1 :: s -> s <> [] ->
  expand q [bs; 1; 1] = Ok q' ->
  s = [1].
Proof.
  intros Hs Hne Hex.
  destruct s as [|d [|d' s']]; [now elim Hne | |].
  - destruct (Nat.eq_dec d 1) as [->|Hd]; [reflexivity|].
    rewrite (expand_class_query_fails q bs Hs Hd) in Hex. discriminate.
  - unfold expand in Hex. rewrite Hs in Hex. discriminate.
Qed.

Lemma expand_single (q : Tensor) :
  shape q = [1; 1; 1] ->
  exists d,
    expand q [1; 1; 1] = Ok (mkTensor (device q) (dtype q) [1; 1; 1] d) /\
    (length (data q) = 1 -> d = data q).
Proof.
  intros Hs. unfold expand. rewrite Hs.
  cbn [length Nat.ltb Nat.leb Nat.sub repeat app].
  cbn [expand_data Nat.eqb seq fold_right bind numel].
  eexists. split; [reflexivity|].
  intros Hl. destruct (data q) as [|v [|v' l]]; try discriminate.
  reflexivity.
Qed.

(** What a return of [_add_class_query] says about its arguments, and the
    two concatenations it is made of. *)
Lemma add_class_query_inv
    (m : RelativePerformerModel) (e p e' p' : Tensor) :
  _add_class_query m e p = Ok (e', p') ->
  exists n n' w q',
    shape (class_query m) = [1] /\
    shape e = [1; n; 1] /\ shape p = [1; n'; w] /\
    device e = device (class_query m) /\ device p = default_device /\
    expand (mkTensor (device (class_query m)) (dtype (class_query m))
              [1; 1; 1] (data (class_query m))) [1; 1; 1] = Ok q' /\
    cat1 q' e = Ok e' /\
    cat1 (zeros [1; 1; w]) p = Ok p'.
Proof.
  unfold _add_class_query.
  destruct (shape p) as [|bs [|n' tl]] eqn:Hp; try discriminate.
  unfold index_None_None_slice.
  destruct (shape (class_query m)) as [|d s] eqn:Hq; [discriminate|].
  cbn [bind].
  destruct (expand _ [bs; 1; 1]) as [q'|] eqn:Hex; [|discriminate].
  cbn [bind].
  destruct (cat1 q' e) as [e1|] eqn:Hce; [|discriminate]. cbn [bind].
  destruct (cat1 (zeros _) p) as [p1|] eqn:Hcp; [|discriminate]. cbn [bind].
  intros [= <- <-].
  assert (Hs : d :: s = [1]).
  { eapply expand_class_query_inv; [| |exact Hex];
      [reflexivity | discriminate]. }
  injection Hs as -> ->.
  destruct (expand_meta _ _ Hex) as (Hsq & Hdq & _). cbn [device] in Hdq.
  destruct (cat1_inv _ _ Hce) as (q0 & q1 & n & qr & Hq' & He & Hde).
  rewrite Hsq in Hq'. injection Hq' as <- <- <-.
  destruct (cat1_inv _ _ Hcp) as (z0 & z1 & p1' & zr & Hz & Hp' & Hdp).
  unfold zeros in Hz, Hdp. cbn [shape device] in Hz, Hdp.
  rewrite Hp in Hp'.
  assert (Hshape : bs = 1 /\ exists w, tl = [w]).
  { destruct tl as [|w [|w' tl']]; cbn [last] in Hz;
      inversion Hz; subst; inversion Hp'; subst.
    split; [reflexivity | now exists w]. }
  destruct Hshape as (-> & w & ->). cbn [last] in Hcp.
  exists n, n', w, q'.
  repeat split; try assumption; congruence.
Qed.

Lemma block_0_all (A : Type) (k : nat) (l : list A) :
  length l = k -> block k 0 l = l.
Proof.
  intros <-. unfold block. cbn [Nat.mul skipn]. apply firstn_all.
Qed.

(** X3.  [_add_class_query] returns exactly when the class query has a
    single entry, both sequences have a batch of one, the content
    embeddings have width 1 and sit on the device of the class query, and
    the positional embeddings have rank 3 and sit on the default device.
    The lengths of the two sequences are not compared.  (An empty tensor
    of rank 1, which [torch.cat] passes over, is left aside.) *)
Theorem add_class_query_returns_iff :
  forall (m : RelativePerformerModel) (embedding pos_embedding : Tensor),
    shape embedding <> [0] ->
    ((exists r, _add_class_query m embedding pos_embedding = Ok r) <->
     (shape (class_query m) = [1] /\
      (exists n, shape embedding = [1; n; 1]) /\
      (exists n' w, shape pos_embedding = [1; n'; w]) /\
      device embedding = device (class_query m) /\
      device pos_embedding = default_device)).
Proof.
  intros m e p _. split.
  - intros [[e' p'] Hr].
    destruct (add_class_query_inv _ _ _ Hr)
      as (n & n' & w & q' & Hq & He & Hp & Hde & Hdp & _).
    repeat split; eauto.
  - intros (Hq & [n He] & (n' & w & Hp) & Hde & Hdp).
    unfold _add_class_query. rewrite Hp. cbn [last].
    unfold index_None_None_slice. rewrite Hq. cbn [bind].
    destruct (expand_single
                (mkTensor (device (class_query m)) (dtype (class_query m))
                   [1; 1; 1] (data (class_query m))) eq_refl)
      as (d & -> & _).
    cbn [bind device dtype].
    rewrite (@cat1_eq _ e 1 1 n [1]) by (assumption || reflexivity).
    cbn [bind].
    rewrite (@cat1_eq (zeros [1; 1; w]) p 1 1 n' [w])
      by (assumption || reflexivity).
    cbn [bind]. eauto.
Qed.

(** X4.  When [_add_class_query] returns, each sequence is one element
    longer: element 0 of the content sequence is the class query and
    element 0 of the positional sequence is the zero vector, and the
    elements given follow in their order, one place further.  (An empty
    tensor of rank 1, which [torch.cat] passes over, is left aside.) *)
Theorem add_class_query_layout :
  forall (m : RelativePerformerModel)
         (embedding pos_embedding embedding' pos_embedding' : Tensor),
    wf_tensor (class_query m) ->
    wf_tensor embedding ->
    wf_tensor pos_embedding ->
    shape embedding <> [0] ->
    _add_class_query m embedding pos_embedding
    = Ok (embedding', pos_embedding') ->
    exists n n' w,
      shape embedding = [1; n; 1] /\
      shape pos_embedding = [1; n'; w] /\
      shape embedding' = [1; 1 + n; 1] /\
      shape pos_embedding' = [1; 1 + n'; w] /\
      item embedding' [0; 0; 0] = item (class_query m) [0] /\
      (forall k, k < w -> item pos_embedding' [0; 0; k] = Some zero) /\
      (forall i,
          i < n ->
          item embedding' [0; 1 + i; 0] = item embedding [0; i; 0]) /\
      (forall i k,
          i < n' -> k < w ->
          item pos_embedding' [0; 1 + i; k] = item pos_embedding [0; i; k]).
Proof.
  intros m e p e' p' Hwq Hwe Hwp _ Hr.
  destruct (add_class_query_inv _ _ _ Hr)
    as (n & n' & w & q' & Hq & He & Hp & Hde & Hdp & Hex & Hce & Hcp).
  unfold wf_tensor in Hwq, Hwe, Hwp. rewrite Hq in Hwq.
  rewrite He in Hwe. rewrite Hp in Hwp. cbn [numel fold_right] in Hwq, Hwe, Hwp.
  destruct (expand_single
              (mkTensor (device (class_query m)) (dtype (class_query m))
                 [1; 1; 1] (data (class_query m))) eq_refl)
    as (d & Hex' & Hd).
  rewrite Hex' in Hex. injection Hex as <-.
  cbn [data] in Hd. rewrite Hd in Hce by lia. clear Hd Hex' d.
  rewrite (@cat1_eq _ e 1 1 n [1]) in Hce
    by (cbn [shape device]; assumption || reflexivity).
  rewrite (@cat1_eq (zeros [1; 1; w]) p 1 1 n' [w]) in Hcp
    by (assumption || reflexivity).
  injection Hce as <-. injection Hcp as <-.
  exists n, n', w.
  split; [exact He|]. split; [exact Hp|].
  split; [reflexivity|]. split; [reflexivity|].
  unfold item. cbn [shape data zeros seq flat_map numel fold_right].
  rewrite !app_nil_r.
  rewrite !block_0_all by (rewrite ?repeat_length; lia).
  rewrite Hq, He, Hp.
  assert (Hlq : length (data (class_query m)) = 1) by lia.
  split; [|split; [|split]].
  - rewrite ravel_3 by lia. cbn [ravel Nat.ltb Nat.leb Nat.mul Nat.add].
    destruct (data (class_query m)) as [|v [|v' l]]; try discriminate.
    reflexivity.
  - intros k Hk. rewrite ravel_3 by lia.
    rewrite nth_error_app1 by (rewrite repeat_length; lia).
    apply nth_error_repeat_lt. lia.
  - intros i Hi. rewrite !ravel_3 by lia.
    rewrite nth_error_app2 by lia. f_equal. lia.
  - intros i k Hi Hk. rewrite !ravel_3 by lia.
    rewrite nth_error_app2 by (rewrite repeat_length; lia).
    f_equal. rewrite repeat_length. lia.
Qed.

End ClassQueryFacts.

Lemma add_class_query_layout_witness :
  wf_tensor (class_query Demo.model_dim1) /\
  wf_tensor (Demo.emb cpu) /\
  wf_tensor (Demo.pos_emb cpu float32) /\
  shape (Demo.emb cpu) <> [0] /\
  exists e' p' : @Tensor Demo.ZScalars,
    @_add_class_query Demo.ZScalars Demo.Echo Demo.model_dim1
      (Demo.emb cpu) (Demo.pos_emb cpu float32) = Ok (e', p') /\
    shape e' = [1; 3; 1] /\ shape p' = [1; 3; 3] /\
    item e' [0; 0; 0] = item (class_query Demo.model_dim1) [0].
Proof.
  assert (H : shape (Demo.emb cpu) <> [0])
    by (intros H; cbv in H; discriminate H).
  split; [reflexivity|]. split; [reflexivity|]. split; [reflexivity|].
  split; [exact H|].
  eexists. eexists. split; [reflexivity|].
  destruct (@add_class_query_layout Demo.ZScalars Demo.Echo Demo.model_dim1
              (Demo.emb cpu) (Demo.pos_emb cpu float32) _ _
              eq_refl eq_refl eq_refl H eq_refl)
    as (n & n' & w & _ & _ & _ & _ & H0 & _).
  split; [reflexivity|]. split; [reflexivity|]. exact H0.
Defined.

(** ** [forward] *)

Section ForwardFacts.

Context {S : Scalars} {E : External}.

Lemma nth_error_block (A : Type) (k j c : nat) (l : list A) :
  c < k -> nth_error (block k j l) c = nth_error l (j * k + c).
Proof.
  intros Hc. unfold block.
  rewrite nth_error_firstn, nth_error_skipn.
  apply Nat.ltb_lt in Hc. now rewrite Hc.
Qed.

Lemma Linear_call_inv (l : Linear) (x y : Tensor) :
  Linear_call l x = Ok y ->
  exists lead,
    shape x = lead ++ [l_in_features l] /\
    shape y = lead ++ [l_out_features l].
Proof.
  unfold Linear_call.
  destruct (rev (shape x)) as [|k lead] eqn:Hr; [discriminate|].
  destruct (Nat.eqb_spec k (l_in_features l)) as [->|]; [|discriminate].
  cbn [negb]. intros [= <-]. exists (rev lead). split; [|reflexivity].
  rewrite <- (rev_involutive (shape x)), Hr. reflexivity.
Qed.

(** The first three statements of [forward] pass only on inputs
    [batch, nx, ny, in_features]. *)
Lemma performer_inputs_inv
    (m : RelativePerformerModel) (x : Tensor) (r : Tensor * Tensor) :
  performer_inputs m x = Ok r ->
  exists b nx ny,
    shape x = [b; nx; ny; l_in_features (content_embedding m)].
Proof.
  unfold performer_inputs.
  destruct (Linear_call (content_embedding m) x) as [emb|] eqn:Hl;
    [|discriminate]. cbn [bind].
  destruct (_flatten_to_sequence emb) as [[e1 p1]|] eqn:Hf; [|discriminate].
  intros _.
  destruct (Linear_call_inv _ _ Hl) as (lead & Hx & Hy).
  destruct (flatten_to_sequence_inv _ Hf) as (b & nx & ny & d & Hs).
  rewrite Hs in Hy.
  change [b; nx; ny; d] with ([b; nx; ny] ++ [d]) in Hy.
  apply app_inj_tail in Hy as [<- _].
  exists b, nx, ny. exact Hx.
Qed.

Lemma forward_rejects (m : RelativePerformerModel) (x : Tensor) :
  (forall b nx ny,
      shape x <> [b; nx; ny; l_in_features (content_embedding m)]) ->
  exists e, forward x m = (Raise e, m) /\ performer_inputs m x = Raise e.
Proof.
  intros Hs. rewrite forward_unfold.
  destruct (performer_inputs m x) as [r|e] eqn:Hin.
  - destruct (performer_inputs_inv _ _ Hin) as (b & nx & ny & Hx).
    now elim (Hs b nx ny).
  - exists e. split; reflexivity.
Qed.

(** X5.  On an input that is not [batch, nx, ny, in_features], [forward]
    raises before it reaches the performer and leaves [self] as it was;
    when it is the last axis that differs from [in_features], the error is
    the RuntimeError of the content embedding. *)
Theorem forward_rejects_other_shapes :
  forall (m : RelativePerformerModel) (x : Tensor),
    (forall b nx ny,
        shape x <> [b; nx; ny; l_in_features (content_embedding m)]) ->
    exists e,
      forward x m = (Raise e, m) /\
      (forall lead k,
          shape x = lead ++ [k] ->
          k <> l_in_features (content_embedding m) ->
          e = RuntimeError).
Proof.
  intros m x Hs.
  destruct (forward_rejects m x Hs) as (e & Hf & Hin).
  exists e. split; [exact Hf|].
  intros lead k Hx Hk. unfold performer_inputs, Linear_call in Hin.
  rewrite Hx, rev_unit in Hin.
  apply Nat.eqb_neq in Hk. rewrite Hk in Hin. cbn in Hin. congruence.
Qed.


(** Each element of the content sequence is the linear layer applied to
    the features of one grid cell. *)
Lemma performer_inputs_content :
  forall (cfg : Config) (m : RelativePerformerModel) (x e p : Tensor)
         (b nx ny : nat),
    wf_model cfg m ->
    wf_tensor x ->
    shape x = [b; nx; ny; Z.to_nat (in_features cfg)] ->
    performer_inputs m x = Ok (e, p) ->
    forall i cx cy,
      i < b -> cx < nx -> cy < ny ->
      exists cell : list scalar,
        length cell = Z.to_nat (in_features cfg) /\
        (forall c,
            c < Z.to_nat (in_features cfg) ->
            nth_error cell c = item x [i; cx; cy; c]) /\
        (forall k,
            k < Z.to_nat (dim cfg) ->
            item e [i; cx * ny + cy; k]
            = nth_error (affine (content_embedding m) cell) k).
Proof.
  intros cfg m x e p b nx ny Hm Hwx Hs Hin i cx cy Hi Hcx Hcy.
  destruct (performer_inputs_eq x Hm Hs)
    as (e0 & p0 & Hin0 & Hse & _ & _ & _ & _ & _ & _ & _ & Hl).
  rewrite Hin in Hin0. injection Hin0 as <- <-.
  destruct Hm.
  rewrite (@Linear_call_eq _ (content_embedding m) x [b; nx; ny]) in Hl
    by (rewrite Hs, wf_content_in0; reflexivity).
  apply (f_equal (fun r => match r with Ok t => data t | Raise _ => [] end))
    in Hl.
  cbn [data] in Hl. rename Hl into Hd.
  set (f := Z.to_nat (in_features cfg)) in *.
  set (j := (i * nx + cx) * ny + cy).
  assert (Hrow : i * nx + cx < b * nx) by nia.
  assert (Hj : j < b * nx * ny) by (unfold j; nia).
  exists (block f j (data x)).
  unfold wf_tensor in Hwx. rewrite Hs in Hwx. cbn [numel fold_right] in Hwx.
  split; [|split].
  - apply length_block. nia.
  - intros c Hc. rewrite nth_error_block by assumption.
    unfold item. rewrite Hs, ravel_4 by assumption. reflexivity.
  - intros k Hk. unfold item. rewrite Hse.
    rewrite ravel_3 by (try assumption; nia).
    rewrite <- Hd, wf_content_in0.
    replace ((i * (nx * ny) + (cx * ny + cy)) * Z.to_nat (dim cfg) + k)
      with (j * Z.to_nat (dim cfg) + k) by (unfold j; lia).
    apply (@nth_error_flat_map_uniform _ _
             (fun i0 => affine (content_embedding m) (block f i0 (data x)))
             (Z.to_nat (dim cfg)) _ j k j).
    + intros a _. rewrite length_affine by assumption. assumption.
    + apply nth_error_seq_0. cbn [numel fold_right]. lia.
    + assumption.
Qed.

(** X7.  Content and grid stay aligned: element [x*ny + y] of the content
    sequence handed to the performer is the content embedding (the linear
    layer) of the features the input holds at grid cell [(x, y)]. *)
Theorem forward_content_alignment :
  forall (cfg : Config) (m : RelativePerformerModel) (x e p : Tensor)
         (b nx ny : nat),
    wf_model cfg m ->
    wf_tensor x ->
    shape x = [b; nx; ny; Z.to_nat (in_features cfg)] ->
    performer_inputs m x = Ok (e, p) ->
    forall i cx cy,
      i < b -> cx < nx -> cy < ny ->
      exists cell : list scalar,
        length cell = Z.to_nat (in_features cfg) /\
        (forall c,
            c < Z.to_nat (in_features cfg) ->
            nth_error cell c = item x [i; cx; cy; c]) /\
        (forall k,
            k < Z.to_nat (dim cfg) ->
            item e [i; cx * ny + cy; k]
            = nth_error (affine (content_embedding m) cell) k).
Proof.
  intros cfg m x e p b nx ny Hm Hwx Hs Hin.
  exact (performer_inputs_content Hm Hwx Hs Hin).
Qed.




(** X10.  Positions stay aligned too: element [x*ny + y] of the
    positional sequence handed to the performer is the encoding of [x]
    followed by the encoding of [y] (the encoder applied to each of the two
    coordinates, side by side). *)
Theorem forward_positional_alignment :
  forall (cfg : Config) (m : RelativePerformerModel) (x e p : Tensor)
         (b nx ny : nat),
    wf_model cfg m ->
    shape x = [b; nx; ny; Z.to_nat (in_features cfg)] ->
    performer_inputs m x = Ok (e, p) ->
    forall cx cy j,
      cx < nx -> cy < ny -> j < 2 * num_bands (positional_embedding m) ->
      item p [0; cx * ny + cy; j]
      = nth_error (encode (positional_embedding m) (cast (dtype x) cx)) j /\
      item p [0; cx * ny + cy; 2 * num_bands (positional_embedding m) + j]
      = nth_error (encode (positional_embedding m) (cast (dtype x) cy)) j.
Proof.
  intros cfg m x e p b nx ny Hm Hs Hin cx cy j Hcx Hcy Hj. destruct Hm.
  unfold performer_inputs in Hin.
  rewrite (@Linear_call_eq _ (content_embedding m) x [b; nx; ny]) in Hin
    by (rewrite Hs, wf_content_in0; reflexivity).
  cbn [bind app] in Hin.
  rewrite flatten_to_sequence_eq
    with (b := b) (nx := nx) (ny := ny)
         (d := l_out_features (content_embedding m)) in Hin by reflexivity.
  cbn [bind device dtype] in Hin.
  rewrite compute_positional_embeddings_eq
    with (b := 1) (n := nx * ny) (p := 2) in Hin by reflexivity.
  cbn [bind device dtype data] in Hin. injection Hin as _ <-.
  set (nb := num_bands (positional_embedding m)) in *.
  assert (Hi : cx * ny + cy < nx * ny) by nia.
  unfold item. cbn [shape data].
  rewrite !ravel_3 by (try assumption; lia).
  split.
  - match goal with
    | |- nth_error _ ?idx = _ =>
        replace idx with (((cx * ny + cy) * 2 + 0) * (2 * nb) + j) by lia
    end.
    apply (@nth_error_flat_map_uniform _ _ (encode (positional_embedding m))
             (2 * nb) _ ((cx * ny + cy) * 2 + 0) j (cast (dtype x) cx)).
    + intros a _. apply length_encode.
    + now rewrite stacked_grid_entry by (assumption || lia).
    + assumption.
  - match goal with
    | |- nth_error _ ?idx = _ =>
        replace idx with (((cx * ny + cy) * 2 + 1) * (2 * nb) + j) by lia
    end.
    apply (@nth_error_flat_map_uniform _ _ (encode (positional_embedding m))
             (2 * nb) _ ((cx * ny + cy) * 2 + 1) j (cast (dtype x) cy)).
    + intros a _. apply length_encode.
    + now rewrite stacked_grid_entry by (assumption || lia).
    + assumption.
Qed.

End ForwardFacts.

(** ** The steps and the script *)

Section StepFacts.

Context {S : Scalars} {E : External} {L : Lightning}.








Lemma training_step_unfold
    (x : Tensor) (y : Labels) (batch_idx : nat) (self : LightningModule) :
  training_step (x, y) batch_idx self =
  match permute_0_2_3_1 x with
  | Raise e => (Raise e, self)
  | Ok x' =>
      let (logits, net') := forward x' (net self) in
      let self' :=
        mkModule net' (train_acc self) (val_acc self) (logged self) in
      match logits with
      | Raise e => (Raise e, self')
      | Ok logits =>
          match CrossEntropyLoss logits y with
          | Raise e => (Raise e, self')
          | Ok loss =>
              match Accuracy_call (train_acc self) logits y with
              | Raise e => (Raise e, self')
              | Ok acc =>
                  (Ok loss,
                   mkModule net' acc (val_acc self)
                     (logged self ++ [mkLog "train_acc"%string true true true]))
              end
          end
      end
  end.
Proof.
  unfold training_step, sbind, slift, call_self, call_train_acc, log.
  destruct (permute_0_2_3_1 x) as [x'|e]; [|reflexivity].
  destruct (forward x' (net self)) as [[logits|e] net']; [|reflexivity].
  destruct (CrossEntropyLoss logits y) as [loss|e]; [|reflexivity].
  cbn [train_acc val_acc net logged].
  destruct (Accuracy_call (train_acc self) logits y) as [acc|e]; reflexivity.
Qed.

Lemma validation_step_unfold
    (x : Tensor) (y : Labels) (batch_idx : nat) (self : LightningModule) :
  validation_step (x, y) batch_idx self =
  match permute_0_2_3_1 x with
  | Raise e => (Raise e, self)
  | Ok x' =>
      let (logits, net') := forward x' (net self) in
      let self' :=
        mkModule net' (train_acc self) (val_acc self) (logged self) in
      match logits with
      | Raise e => (Raise e, self')
      | Ok logits =>
          match CrossEntropyLoss logits y with
          | Raise e => (Raise e, self')
          | Ok loss =>
              match Accuracy_call (val_acc self) logits y with
              | Raise e => (Raise e, self')
              | Ok acc =>
                  (Ok loss,
                   mkModule net' (train_acc self) acc
                     (logged self ++ [mkLog "val_acc"%string true true false]))
              end
          end
      end
  end.
Proof.
  unfold validation_step, sbind, slift, call_self, call_val_acc, log.
  destruct (permute_0_2_3_1 x) as [x'|e]; [|reflexivity].
  destruct (forward x' (net self)) as [[logits|e] net']; [|reflexivity].
  destruct (CrossEntropyLoss logits y) as [loss|e]; [|reflexivity].
  cbn [train_acc val_acc net logged].
  destruct (Accuracy_call (val_acc self) logits y) as [acc|e]; reflexivity.
Qed.



(** X12.  On one batch and one module, [validation_step] returns the loss
    [training_step] returns and leaves the network in the same state; the
    two differ in the metric they update and in the entry they log:
    [train_acc] with the progress bar for the one, [val_acc] without it for
    the other, one entry each. *)
Theorem validation_step_mirrors_training_step :
  forall (batch : Tensor * Labels) (i j : nat) (self : LightningModule)
         (loss loss' : scalar),
    fst (training_step batch i self) = Ok loss ->
    fst (validation_step batch j self) = Ok loss' ->
    loss = loss' /\
    net (snd (training_step batch i self))
    = net (snd (validation_step batch j self)) /\
    val_acc (snd (training_step batch i self)) = val_acc self /\
    train_acc (snd (validation_step batch j self)) = train_acc self /\
    logged (snd (training_step batch i self))
    = logged self ++ [mkLog "train_acc"%string true true true] /\
    logged (snd (validation_step batch j self))
    = logged self ++ [mkLog "val_acc"%string true true false].
Proof.
  intros [x y] i j self loss loss'.
  rewrite training_step_unfold, validation_step_unfold.
  destruct (permute_0_2_3_1 x) as [x'|e]; [|discriminate].
  destruct (forward x' (net self)) as [[logits|e] net']; [|discriminate].
  destruct (CrossEntropyLoss logits y) as [l|e]; [|discriminate].
  destruct (Accuracy_call (train_acc self) logits y) as [acc|e];
    [|discriminate].
  destruct (Accuracy_call (val_acc self) logits y) as [acc'|e];
    [|discriminate].
  cbn. intros [= <-] [= <-]. repeat split.
Qed.

(** X13.  A batch that is not [b, in_features, W, H] (channels first) makes
    both steps raise, and the same error, with [self] as it was: no metric
    updated, nothing logged, the network untouched. *)
Theorem steps_reject_other_layouts :
  forall (x : Tensor) (y : Labels) (i j : nat) (self : LightningModule),
    (forall b w h,
        shape x
        <> [b; l_in_features (content_embedding (net self)); w; h]) ->
    exists e,
      training_step (x, y) i self = (Raise e, self) /\
      validation_step (x, y) j self = (Raise e, self).
Proof.
  intros x y i j self Hs.
  rewrite training_step_unfold, validation_step_unfold.
  destruct (permute_0_2_3_1 x) as [x'|e] eqn:Hp; [|eauto].
  assert (Hx' : forall b nx ny,
             shape x'
             <> [b; nx; ny; l_in_features (content_embedding (net self))]).
  { unfold permute_0_2_3_1 in Hp.
    destruct (shape x) as [|b [|c [|w [|h [|? ?]]]]] eqn:Hx; try discriminate.
    injection Hp as <-. cbn [shape]. intros b' nx ny [= -> -> -> ->].
    now elim (Hs b' nx ny). }
  destruct (forward_rejects (net self) x' Hx') as (e & -> & _).
  exists e. destruct self. split; reflexivity.
Qed.


End StepFacts.

(** ** [__init__] and [reset_parameters] *)

Section InitFacts.

Context {S : Scalars} {E : External}.

(** X15.  A model [__init__] returns has the layers the configuration
    asks for: a content embedding from [in_features] to [dim], an output
    layer from [dim] to [num_classes], a class query of [dim] entries on
    the default device, and a performer that was given [dim], [depth],
    [heads], [pos_dims] and [pos_scales] unchanged and is in its initial
    state. *)
Theorem init_builds_configured_layers :
  forall (cfg : Config) (m : RelativePerformerModel),
    __init__ cfg = Ok m ->
    hparams m = cfg /\
    l_in_features (content_embedding m) = Z.to_nat (in_features cfg) /\
    l_out_features (content_embedding m) = Z.to_nat (dim cfg) /\
    l_in_features (output_layer m) = Z.to_nat (dim cfg) /\
    l_out_features (output_layer m) = Z.to_nat (num_classes cfg) /\
    shape (class_query m) = [Z.to_nat (dim cfg)] /\
    length (data (class_query m)) = Z.to_nat (dim cfg) /\
    device (class_query m) = default_device /\
    dtype (class_query m) = default_dtype /\
    rp_args (performer m)
    = mkArgs (dim cfg) (depth cfg) (heads cfg) (pos_dims cfg) (pos_scales cfg) /\
    rp_state (performer m) = performer_init (rp_args (performer m)) /\
    (0 <= dim cfg)%Z /\ (0 <= in_features cfg)%Z /\ (0 <= num_classes cfg)%Z.
Proof.
  intros cfg m Hinit.
  pose proof (init_wf _ Hinit) as Hm. destruct Hm.
  unfold wf_tensor in wf_query0. rewrite wf_query_shape0 in wf_query0.
  cbn [numel fold_right] in wf_query0.
  repeat (split; [first [assumption | lia]|]).
  revert Hinit.
  unfold __init__, LearnableSinusoidEncoding_new, RelativePerformer_new,
    torch_Tensor, Linear_new.
  destruct (encoding_check _ _); [discriminate|]. cbn [bind].
  destruct (in_features cfg <? 0)%Z eqn:Hi;
    destruct (dim cfg <? 0)%Z eqn:Hd; try discriminate.
  cbn [orb bind].
  destruct (performer_check _); [discriminate|]. cbn [bind].
  destruct (num_classes cfg <? 0)%Z eqn:Hn; [discriminate|].
  cbn [orb bind]. intros [= <-]. cbn.
  apply Z.ltb_ge in Hi, Hd, Hn. repeat split; assumption.
Qed.

(** X16.  [__init__] returns no model for a negative [dim],
    [in_features] or [num_classes]: a layer of a negative size cannot be
    allocated. *)
Theorem init_rejects_negative_sizes :
  forall (cfg : Config),
    (dim cfg < 0)%Z \/ (in_features cfg < 0)%Z \/ (num_classes cfg < 0)%Z ->
    exists e, __init__ cfg = Raise e.
Proof.
  intros cfg Hneg.
  destruct (__init__ cfg) as [m|e] eqn:Hinit; [|eauto].
  exfalso. revert Hinit.
  unfold __init__, LearnableSinusoidEncoding_new, RelativePerformer_new,
    torch_Tensor, Linear_new.
  destruct (encoding_check _ _); [discriminate|]. cbn [bind].
  destruct (in_features cfg <? 0)%Z eqn:Hi;
    destruct (dim cfg <? 0)%Z eqn:Hd; try discriminate.
  cbn [orb bind].
  destruct (performer_check _); [discriminate|]. cbn [bind].
  destruct (num_classes cfg <? 0)%Z eqn:Hn; [discriminate|].
  apply Z.ltb_ge in Hi, Hd, Hn. lia.
Qed.

(** X17.  [reset_parameters] draws the class query afresh and keeps its
    shape, so a well-shaped model stays well-shaped; and as [forward] does
    not read the class query, the outcome of [forward] is the same before
    and after. *)
Theorem reset_parameters_keeps_forward :
  forall (cfg : Config) (m : RelativePerformerModel) (x : Tensor),
    wf_model cfg m ->
    wf_model cfg (reset_parameters m) /\
    shape (class_query (reset_parameters m)) = shape (class_query m) /\
    device (class_query (reset_parameters m)) = device (class_query m) /\
    fst (forward x (reset_parameters m)) = fst (forward x m).
Proof.
  intros cfg m x Hm. split; [|split; [reflexivity|split; [reflexivity|]]].
  - destruct Hm. constructor; cbn; try assumption.
    unfold wf_tensor in *. cbn. now rewrite length_map, length_seq.
  - rewrite !forward_unfold.
    change (performer_inputs (reset_parameters m) x)
      with (performer_inputs m x).
    destruct (performer_inputs m x) as [[e p]|err]; [|reflexivity].
    cbn [reset_parameters performer output_layer].
    destruct (performer_forward _ _ e p) as [r st]. reflexivity.
Qed.

End InitFacts.

(** ** Runs of the further properties *)


Lemma forward_rejects_other_shapes_witness :
  (forall b nx ny,
      shape (Demo.tensor cpu float32 [1; 1; 1; 2] [5; 6]%Z)
      <> [b; nx; ny; l_in_features (content_embedding Demo.model)]) /\
  @forward Demo.ZScalars Demo.Echo
    (Demo.tensor cpu float32 [1; 1; 1; 2] [5; 6]%Z) Demo.model
  = (Raise RuntimeError, Demo.model).
Proof.
  assert (H : forall b nx ny,
             shape (Demo.tensor cpu float32 [1; 1; 1; 2] [5; 6]%Z)
             <> [b; nx; ny; l_in_features (content_embedding Demo.model)])
    by (intros b nx ny H; cbv in H; injection H as _ _ _ H; discriminate H).
  split; [exact H|].
  destruct (@forward_rejects_other_shapes Demo.ZScalars Demo.Echo Demo.model
              (Demo.tensor cpu float32 [1; 1; 1; 2] [5; 6]%Z) H)
    as (e & Hf & He).
  rewrite Hf. rewrite (He [1; 1; 1] 2 eq_refl); [reflexivity | discriminate].
Defined.

Lemma forward_content_alignment_witness :
  wf_model Demo.cfg Demo.model /\
  wf_tensor Demo.x /\
  shape Demo.x = [2; 1; 2; Z.to_nat (in_features Demo.cfg)] /\
  exists (e p : @Tensor Demo.ZScalars) (cell : list Z),
    @performer_inputs Demo.ZScalars Demo.Echo Demo.model Demo.x = Ok (e, p) /\
    nth_error cell 0 = item Demo.x [1; 0; 1; 0] /\
    item e [1; 0 * 2 + 1; 2]
    = nth_error (@affine Demo.ZScalars (content_embedding Demo.model) cell) 2.
Proof.
  split; [exact (init_wf _ Demo_init_cfg)|].
  split; [reflexivity|]. split; [reflexivity|].
  eexists. eexists.
  destruct (@forward_content_alignment Demo.ZScalars Demo.Echo
              Demo.cfg Demo.model Demo.x _ _ 2 1 2
              (init_wf _ Demo_init_cfg) eq_refl eq_refl eq_refl
              1 0 1)
    as (cell & _ & Hcell & Hemb); try (repeat constructor).
  exists cell. split; [reflexivity|]. split.
  - apply Hcell. repeat constructor.
  - apply Hemb. repeat constructor.
Defined.



Lemma forward_positional_alignment_witness :
  wf_model Demo.cfg Demo.model /\
  shape Demo.x = [2; 1; 2; Z.to_nat (in_features Demo.cfg)] /\
  exists e p : @Tensor Demo.ZScalars,
    @performer_inputs Demo.ZScalars Demo.Echo Demo.model Demo.x = Ok (e, p) /\
    item p [0; 0 * 2 + 1; 2 * num_bands (positional_embedding Demo.model) + 3]
    = nth_error
        (@encode Demo.ZScalars (positional_embedding Demo.model)
           (@cast Demo.ZScalars (dtype Demo.x) 1)) 3.
Proof.
  split; [exact (init_wf _ Demo_init_cfg)|]. split; [reflexivity|].
  eexists. eexists. split; [reflexivity|].
  apply (@forward_positional_alignment Demo.ZScalars Demo.Echo
           Demo.cfg Demo.model Demo.x _ _ 2 1 2
           (init_wf _ Demo_init_cfg) eq_refl eq_refl 0 1 3);
    repeat constructor.
Defined.


Lemma validation_step_mirrors_training_step_witness :
  fst (@training_step Demo.ZScalars Demo.Echo Demo.Counting
         Demo.batch 0 Demo.module) = Ok 11400%Z /\
  fst (@validation_step Demo.ZScalars Demo.Echo Demo.Counting
         Demo.batch 0 Demo.module) = Ok 11400%Z /\
  val_acc (snd (@training_step Demo.ZScalars Demo.Echo Demo.Counting
                  Demo.batch 0 Demo.module)) = val_acc Demo.module /\
  train_acc (snd (@validation_step Demo.ZScalars Demo.Echo Demo.Counting
                    Demo.batch 0 Demo.module)) = train_acc Demo.module.
Proof.
  split; [reflexivity|]. split; [reflexivity|].
  destruct (@validation_step_mirrors_training_step Demo.ZScalars Demo.Echo
              Demo.Counting Demo.batch 0 0 Demo.module 11400%Z 11400%Z
              eq_refl eq_refl)
    as (_ & _ & Hv & Ht & _).
  split; assumption.
Defined.

Lemma steps_reject_other_layouts_witness :
  (forall b w h,
      shape Demo.x_channels_first
      <> [b; l_in_features (content_embedding (net Demo.module)); w; h]) /\
  exists e,
    @training_step Demo.ZScalars Demo.Echo Demo.Counting
      (Demo.x_channels_first, [0]) 0 Demo.module = (Raise e, Demo.module) /\
    @validation_step Demo.ZScalars Demo.Echo Demo.Counting
      (Demo.x_channels_first, [0]) 0 Demo.module = (Raise e, Demo.module).
Proof.
  assert (H : forall b w h,
             shape Demo.x_channels_first
             <> [b; l_in_features (content_embedding (net Demo.module)); w; h])
    by (intros b w h H; cbv in H; injection H as _ H _ _; discriminate H).
  split; [exact H|].
  apply (@steps_reject_other_layouts Demo.ZScalars Demo.Echo Demo.Counting
           Demo.x_channels_first ([0] : @Labels Demo.ZScalars Demo.Counting) 0 0
           Demo.module H).
Defined.


Lemma init_builds_configured_layers_witness :
  @__init__ Demo.ZScalars Demo.Echo Demo.cfg = Ok Demo.model /\
  l_in_features (content_embedding Demo.model)
  = Z.to_nat (in_features Demo.cfg) /\
  rp_args (performer Demo.model)
  = mkArgs (dim Demo.cfg) (depth Demo.cfg) (heads Demo.cfg)
      (pos_dims Demo.cfg) (pos_scales Demo.cfg).
Proof.
  split; [reflexivity|].
  destruct (@init_builds_configured_layers Demo.ZScalars Demo.Echo
              Demo.cfg Demo.model eq_refl)
    as (_ & Hin & _ & _ & _ & _ & _ & _ & _ & Hargs & _).
  split; assumption.
Defined.

Lemma init_rejects_negative_sizes_witness :
  (dim (mkConfig (-1) 1 1 2 1 2 4 5) < 0)%Z /\
  exists e,
    @__init__ Demo.ZScalars Demo.Echo (mkConfig (-1) 1 1 2 1 2 4 5) = Raise e.
Proof.
  split; [reflexivity|].
  apply (@init_rejects_negative_sizes Demo.ZScalars Demo.Echo
           (mkConfig (-1) 1 1 2 1 2 4 5)).
  left. reflexivity.
Defined.

Lemma reset_parameters_keeps_forward_witness :
  wf_model Demo.cfg Demo.model /\
  fst (@forward Demo.ZScalars Demo.Echo Demo.x
         (@reset_parameters Demo.ZScalars Demo.Echo Demo.model))
  = fst (@forward Demo.ZScalars Demo.Echo Demo.x Demo.model).
Proof.
  split; [exact (init_wf _ Demo_init_cfg)|].
  destruct (@reset_parameters_keeps_forward Demo.ZScalars Demo.Echo
              Demo.cfg Demo.model Demo.x (init_wf _ Demo_init_cfg))
    as (_ & _ & _ & H).
  exact H.
Defined.

Lemma add_class_query_returns_iff_witness :
  shape (Demo.emb cpu) <> [0] /\
  exists r,
    @_add_class_query Demo.ZScalars Demo.Echo Demo.model_dim1
      (Demo.emb cpu) (Demo.pos_emb cpu float32) = Ok r.
Proof.
  assert (H : shape (Demo.emb cpu) <> [0])
    by (intros H; cbv in H; discriminate H).
  split; [exact H|].
  apply (@add_class_query_returns_iff Demo.ZScalars Demo.Echo
           Demo.model_dim1 (Demo.emb cpu) (Demo.pos_emb cpu float32) H).
  repeat split.
  - exists 2. reflexivity.
  - exists 2, 3. reflexivity.
Defined.

